(** * Poster maker: crop, overlay a template, export

    A shallow embedding of [src/App.tsx] (the React component [App] and the
    compositor [createHighQualityPoster]) and of the declaration of
    [getCroppedImg] ([utils/cropImage]).

    Conventions of the embedding.
    - A JavaScript [number] that the code compares with [===] against a
      quotient ([aspectRatio]) is a binary64 [float]; pixel coordinates,
      sizes, counters and indices are [Z].
    - A [string | null] is an [option string]; JavaScript truthiness of such
      a value is [truthy].
    - A promise is its settled state; an [async] handler is the trace of the
      effects it performs, in program order.
    - A decoded image is its pixel grid; a canvas is its size and the list of
      [drawImage] calls made on it since it was last reset. *)

From Stdlib Require Import ZArith List String Ascii Bool Lia.
From Stdlib Require Import Floats.PrimFloat DecimalString.
Import ListNotations.

Open Scope Z_scope.

(* ------------------------------------------------------------------ *)
(** * The 2D canvas *)

Module Canvas2D.

(** One pixel, 8 bits per channel, alpha not premultiplied. *)
Record RGBA := mkRGBA { red : Z; green : Z; blue : Z; alpha : Z }.

Definition transparent : RGBA := mkRGBA 0 0 0 0.

Definition opaque (p : RGBA) : bool := alpha p =? 255.

(** A decoded raster image. *)
Record Bitmap := mkBitmap
  { naturalWidth : Z; naturalHeight : Z; pixelAt : Z -> Z -> RGBA }.

(** The scaling filter of [drawImage]: [f img dw dh x y] is the pixel at
    [(x, y)] of [img] stretched to [dw] by [dh].  Which filter a browser
    uses is its own choice, so the development is parametric in it. *)
Definition Resampler := Bitmap -> Z -> Z -> Z -> Z -> RGBA.

(** Nearest-neighbour scaling, one possible filter. *)
Definition nearest : Resampler := fun img dw dh x y =>
  pixelAt img (x * naturalWidth img / dw) (y * naturalHeight img / dh).

(** [ctx.drawImage(image, dx, dy, dWidth, dHeight)]. *)
Inductive DrawOp := DrawImage (image : Bitmap) (dx dy dWidth dHeight : Z).

Record Canvas := mkCanvas { width : Z; height : Z; ops : list DrawOp }.

(** [document.createElement("canvas")]: 300 by 150, transparent. *)
Definition createCanvas : Canvas := mkCanvas 300 150 [].

(** Assigning [canvas.width] or [canvas.height] resets the bitmap. *)
Definition setWidth (w : Z) (c : Canvas) : Canvas := mkCanvas w (height c) [].
Definition setHeight (h : Z) (c : Canvas) : Canvas := mkCanvas (width c) h [].

(** An [HTMLImageElement]: its [src] and, once it has loaded, its pixels. *)
Record ImageEl := mkImageEl { src : string; bitmap : option Bitmap }.

(** [new Image()] followed by the assignment of [src]. *)
Definition newImage (s : string) : ImageEl := mkImageEl s None.

(** [drawImage] of an element that holds no decoded data draws nothing. *)
Definition drawImage (el : ImageEl) (dx dy dw dh : Z) (c : Canvas) : Canvas :=
  match bitmap el with
  | Some b => mkCanvas (width c) (height c) (ops c ++ [DrawImage b dx dy dw dh])
  | None => c
  end.

(** The default compositing operator, source-over. *)
Definition sourceOver (s d : RGBA) : RGBA :=
  let sa := alpha s in
  let rest := alpha d * (255 - sa) / 255 in
  let oa := sa + rest in
  let ch cs cd := if oa =? 0 then 0 else (cs * sa + cd * rest) / oa in
  mkRGBA (ch (red s) (red d)) (ch (green s) (green d)) (ch (blue s) (blue d)) oa.

Definition paint (f : Resampler) (x y : Z) (dst : RGBA) (op : DrawOp) : RGBA :=
  match op with
  | DrawImage img dx dy dw dh =>
      if (dx <=? x) && (x <? dx + dw) && (dy <=? y) && (y <? dy + dh)
      then sourceOver (f img dw dh (x - dx) (y - dy)) dst
      else dst
  end.

(** The pixel of the canvas at [(x, y)] after all its drawing calls. *)
Definition render (f : Resampler) (c : Canvas) (x y : Z) : RGBA :=
  if (0 <=? x) && (x <? width c) && (0 <=? y) && (y <? height c)
  then fold_left (paint f x y) (ops c) transparent
  else transparent.

(** [canvas.toDataURL(type, quality)]: a lossless snapshot of the canvas. *)
Record DataURL := mkDataURL { mime : string; surface : Canvas }.

Definition toDataURL (type : string) (c : Canvas) : DataURL := mkDataURL type c.

End Canvas2D.

(* ------------------------------------------------------------------ *)
(** * createHighQualityPoster *)

Module Compositor.
Import Canvas2D.

(** The two image elements of one call. *)
Inductive Which := CroppedEl | TemplateEl.

(** What the promise can be rejected with: the string of line 46, or the
    error event an image element passes to its [onerror] handler. *)
Inductive Reason := CanvasContextNotAvailable | ImageError (w : Which).

Inductive Promise := Pending | Resolved (dataUrl : DataURL) | Rejected (r : Reason).

(** A promise settles once; later calls of [resolve] or [reject] do nothing. *)
Definition settleWith (p q : Promise) : Promise :=
  match p with Pending => q | _ => p end.

(** The variables the executor of the promise closes over. *)
Record Exec := mkExec
  { posterCanvas : Canvas;
    ctx : bool;                 (* [getContext("2d")] returned a context *)
    croppedImage : ImageEl;
    templateImage : ImageEl;
    imagesLoaded : Z;
    promise : Promise }.

Definition totalImages : Z := 2.

Definition resolve (d : DataURL) (e : Exec) : Exec :=
  mkExec (posterCanvas e) (ctx e) (croppedImage e) (templateImage e)
         (imagesLoaded e) (settleWith (promise e) (Resolved d)).

Definition reject (r : Reason) (e : Exec) : Exec :=
  mkExec (posterCanvas e) (ctx e) (croppedImage e) (templateImage e)
         (imagesLoaded e) (settleWith (promise e) (Rejected r)).

Definition withCanvas (c : Canvas) (e : Exec) : Exec :=
  mkExec c (ctx e) (croppedImage e) (templateImage e) (imagesLoaded e) (promise e).

(** Lines 42-69. *)
Definition onImageLoad (e : Exec) : Exec :=
  let e := mkExec (posterCanvas e) (ctx e) (croppedImage e) (templateImage e)
                  (imagesLoaded e + 1) (promise e) in
  if imagesLoaded e =? totalImages then
    if negb (ctx e) then reject CanvasContextNotAvailable e
    else
      let c := posterCanvas e in
      let c := drawImage (croppedImage e) 0 0 (width c) (height c) c in
      let c := drawImage (templateImage e) 0 0 (width c) (height c) c in
      resolve (toDataURL "image/png" c) (withCanvas c e)
  else e.

(** Lines 24-40 and 71-77: the state when the executor returns, before
    either image has settled. *)
Definition start (ctxAvailable : bool) (croppedImageSrc templateSrc : string)
           (aspectRatio : float) : Exec :=
  let posterCanvas := createCanvas in
  let posterCanvas :=
    if PrimFloat.eqb aspectRatio (3 / 4)%float
    then setHeight 1600 (setWidth 1200 posterCanvas)
    else setHeight 1200 (setWidth 1600 posterCanvas) in
  mkExec posterCanvas ctxAvailable
         (newImage croppedImageSrc) (newImage templateSrc) 0 Pending.

Definition element (w : Which) (e : Exec) : ImageEl :=
  match w with CroppedEl => croppedImage e | TemplateEl => templateImage e end.

Definition loaded (w : Which) (b : Bitmap) (e : Exec) : Exec :=
  match w with
  | CroppedEl =>
      mkExec (posterCanvas e) (ctx e) (mkImageEl (src (croppedImage e)) (Some b))
             (templateImage e) (imagesLoaded e) (promise e)
  | TemplateEl =>
      mkExec (posterCanvas e) (ctx e) (croppedImage e)
             (mkImageEl (src (templateImage e)) (Some b))
             (imagesLoaded e) (promise e)
  end.

(** The browser settles element [w]: it decodes the element's [src] and
    fires [load] (handler [onImageLoad]) or [error] (handler [reject]). *)
Definition settle (decode : string -> option Bitmap) (e : Exec) (w : Which) : Exec :=
  match decode (src (element w e)) with
  | Some b => onImageLoad (loaded w b e)
  | None => reject (ImageError w) e
  end.

(** The state after the elements listed in [order] have settled, in that
    order.  An element settles at most once per assignment of its [src],
    so the orders that occur have no duplicates. *)
Definition run (decode : string -> option Bitmap) (order : list Which) (e : Exec) : Exec :=
  fold_left (settle decode) order e.

Definition createHighQualityPoster (decode : string -> option Bitmap)
           (ctxAvailable : bool) (croppedImageSrc templateSrc : string)
           (aspectRatio : float) (order : list Which) : Exec :=
  run decode order (start ctxAvailable croppedImageSrc templateSrc aspectRatio).

(** The state [start] gives for a canvas of [W] by [H]. *)
Definition fresh (ctxAvailable : bool) (croppedImageSrc templateSrc : string)
           (W H : Z) : Exec :=
  mkExec (mkCanvas W H []) ctxAvailable
         (newImage croppedImageSrc) (newImage templateSrc) 0 Pending.

(** The canvas keeps its size, and a poster has the size of the canvas. *)
Definition sized (W H : Z) (e : Exec) : Prop :=
  width (posterCanvas e) = W /\ height (posterCanvas e) = H /\
  forall d, promise e = Resolved d -> width (surface d) = W /\ height (surface d) = H.

(** The promise once both elements have settled, the cropped image
    first. *)
Definition settled (decode : string -> option Bitmap) (ctxAvailable : bool)
           (croppedImageSrc templateSrc : string) (aspectRatio : float) : Promise :=
  promise (createHighQualityPoster decode ctxAvailable croppedImageSrc templateSrc
                                   aspectRatio [CroppedEl; TemplateEl]).

(** The poster a promise carries, if it has been resolved. *)
Definition poster (p : Promise) : option DataURL :=
  match p with Resolved d => Some d | _ => None end.

(** The source assigned to element [w]. *)
Definition sourceOf (croppedImageSrc templateSrc : string) (w : Which) : string :=
  match w with CroppedEl => croppedImageSrc | TemplateEl => templateSrc end.

(** Whether the browser fires [load] rather than [error] for element [w]. *)
Definition decodes (decode : string -> option Bitmap)
           (croppedImageSrc templateSrc : string) (w : Which) : bool :=
  match decode (sourceOf croppedImageSrc templateSrc w) with
  | Some _ => true
  | None => false
  end.

End Compositor.

(* ------------------------------------------------------------------ *)
(** * getCroppedImg *)

Module CropImage.
Import Canvas2D.

(** Lines 1-6 of the declaration file. *)
Record PixelCrop := mkPixelCrop { x : Z; y : Z; width : Z; height : Z }.

Inductive Error := InvalidRectangleError | DecodeError.

Inductive Result (A : Type) := Ok (a : A) | Err (e : Error).
Arguments Ok {A} a.
Arguments Err {A} e.

(** Modelled from the spec: the body of [getCroppedImg]; the source holds
    only its declaration.  The part of the bounds invariant of a crop
    rectangle that does not mention the source image. *)
Definition wellFormed (r : PixelCrop) : bool :=
  (0 <=? x r) && (0 <=? y r) && (0 <? width r) && (0 <? height r).

(** Modelled from the spec: the body of [getCroppedImg].  The part of the
    bounds invariant that compares the rectangle with the decoded source. *)
Definition fits (s : Bitmap) (r : PixelCrop) : bool :=
  (x r + width r <=? naturalWidth s) && (y r + height r <=? naturalHeight s).

(** Modelled from the spec: the body of [getCroppedImg].  An output
    surface of exactly [width r] by [height r] that holds the region of
    [s] at [(x r, y r)], copied to offset [(0, 0)] without scaling. *)
Definition copyRegion (s : Bitmap) (r : PixelCrop) : Bitmap :=
  mkBitmap (width r) (height r)
    (fun i j =>
       if (0 <=? i) && (i <? width r) && (0 <=? j) && (j <? height r)
       then pixelAt s (x r + i) (y r + j)
       else transparent).

(** Modelled from the spec: the body of [getCroppedImg] (the spec's
    [extractCrop]).  A null or ill-formed rectangle is refused; then the
    source is decoded; then the rectangle is checked against the decoded
    size and the region copied.  The result stands for the losslessly
    encoded image the promise resolves with. *)
Definition getCroppedImg (decode : string -> option Bitmap)
           (imageSrc : option string) (pixelCrop : option PixelCrop) : Result Bitmap :=
  match pixelCrop with
  | None => Err InvalidRectangleError
  | Some r =>
      if negb (wellFormed r) then Err InvalidRectangleError
      else
        match match imageSrc with Some s => decode s | None => None end with
        | None => Err DecodeError
        | Some s =>
            if fits s r then Ok (copyRegion s r) else Err InvalidRectangleError
        end
  end.

End CropImage.

(* ------------------------------------------------------------------ *)
(** * The component App *)

Module ImageData.

Record Point := mkPoint { x : float; y : float }.

(** Lines 9-16. *)
Record t := mk
  { id : string;
    src : string;
    croppedImage : option string;
    crop : Point;
    zoom : float;
    croppedAreaPixels : option CropImage.PixelCrop }.

End ImageData.

Module App.
Import Canvas2D.
Export ImageData(Point, mkPoint).

(** The bundled template images (lines 6-7), as their module specifiers. *)
Definition template4 : string := "./assets/template4.png".
Definition template3 : string := "./assets/template3.png".

(** JavaScript truthiness of a [string | null]. *)
Definition truthy (s : option string) : bool :=
  match s with
  | Some s => negb (String.eqb s "")
  | None => false
  end.

(** A template literal prints a number in decimal. *)
Definition showNat (n : nat) : string := NilEmpty.string_of_uint (Nat.to_uint n).
Definition showZ (n : Z) : string := NilZero.string_of_int (Z.to_int n).

(** The state hooks of lines 82-89. *)
Record State := mkState
  { images : list ImageData.t;
    currentImageIndex : Z;
    crop : Point;
    zoom : float;
    croppedAreaPixels : option CropImage.PixelCrop;
    aspectRatio : float;
    template : string;
    isProcessing : bool }.

Definition initial : State :=
  mkState [] (-1) (mkPoint 0 0) 1%float None (4 / 3)%float template4 false.

Definition setImages (f : list ImageData.t -> list ImageData.t) (st : State) : State :=
  mkState (f (images st)) (currentImageIndex st) (crop st) (zoom st)
          (croppedAreaPixels st) (aspectRatio st) (template st) (isProcessing st).
Definition setCurrentImageIndex (i : Z) (st : State) : State :=
  mkState (images st) i (crop st) (zoom st)
          (croppedAreaPixels st) (aspectRatio st) (template st) (isProcessing st).
Definition setCrop (c : Point) (st : State) : State :=
  mkState (images st) (currentImageIndex st) c (zoom st)
          (croppedAreaPixels st) (aspectRatio st) (template st) (isProcessing st).
Definition setZoom (z : float) (st : State) : State :=
  mkState (images st) (currentImageIndex st) (crop st) z
          (croppedAreaPixels st) (aspectRatio st) (template st) (isProcessing st).
Definition setCroppedAreaPixels (a : option CropImage.PixelCrop) (st : State) : State :=
  mkState (images st) (currentImageIndex st) (crop st) (zoom st)
          a (aspectRatio st) (template st) (isProcessing st).
Definition setAspectRatio (r : float) (st : State) : State :=
  mkState (images st) (currentImageIndex st) (crop st) (zoom st)
          (croppedAreaPixels st) r (template st) (isProcessing st).
Definition setTemplate (t : string) (st : State) : State :=
  mkState (images st) (currentImageIndex st) (crop st) (zoom st)
          (croppedAreaPixels st) (aspectRatio st) t (isProcessing st).
Definition setIsProcessing (b : bool) (st : State) : State :=
  mkState (images st) (currentImageIndex st) (crop st) (zoom st)
          (croppedAreaPixels st) (aspectRatio st) (template st) b.

(** [images[i]]: [undefined] outside the array. *)
Definition at_ (l : list ImageData.t) (i : Z) : option ImageData.t :=
  if i <? 0 then None else nth_error l (Z.to_nat i).

(** Lines 222-223. *)
Definition currentImage (st : State) : option ImageData.t :=
  if 0 <=? currentImageIndex st then at_ (images st) (currentImageIndex st) else None.

(** Lines 91-93. *)
Definition onCropComplete (croppedArea croppedAreaPixels : option CropImage.PixelCrop)
           (st : State) : State :=
  setCroppedAreaPixels croppedAreaPixels st.

(** The two ratio buttons, lines 241-266. *)
Inductive AspectMode := Landscape | Portrait.

Definition ratioOf (m : AspectMode) : float :=
  match m with Landscape => (4 / 3)%float | Portrait => (3 / 4)%float end.

Definition templateOf (m : AspectMode) : string :=
  match m with Landscape => template4 | Portrait => template3 end.

Definition selectMode (m : AspectMode) (st : State) : State :=
  setTemplate (templateOf m) (setAspectRatio (ratioOf m) st).

(** One [FileReader] that fired [onload]: the position of its file in the
    list, the clock when it fired and its [result] if that is a string. *)
Record FileRead := mkFileRead { index : nat; now : Z; result : option string }.

Definition uploaded (r : FileRead) (dataUrl : string) : ImageData.t :=
  ImageData.mk ("image-" ++ showZ (now r) ++ "-" ++ showNat (index r))%string dataUrl
               None (mkPoint 0 0) 1%float None.

(** Lines 103-121, one reader's [onload]: [newImages] is the array shared
    by the readers of one upload. *)
Definition onUploadRead (nfiles : nat) (acc : list ImageData.t * State) (r : FileRead)
  : list ImageData.t * State :=
  let '(newImages, st) := acc in
  match result r with
  | Some dataUrl =>
      let newImages := (newImages ++ [uploaded r dataUrl])%list in
      if Nat.eqb (List.length newImages) nfiles then
        (newImages,
         setIsProcessing false
           (setCurrentImageIndex (if (0 <? Z.of_nat (List.length newImages)) then 0 else -1)
              (setImages (fun prev => (prev ++ newImages)%list) st)))
      else (newImages, st)
  | None => (newImages, st)
  end.

(** Lines 95-125.  [files] is [None] when [e.target.files] is null, else
    the number of chosen files; [reads] lists the readers that fired
    [onload], in the order in which they fired. *)
Definition handleUpload (files : option nat) (reads : list FileRead) (st : State) : State :=
  match files with
  | Some nfiles => snd (fold_left (onUploadRead nfiles) reads ([], setIsProcessing true st))
  | None => st
  end.

(** Lines 127-147.  [rendered] is the render whose [images] the handler
    closed over; [file] is [None] when no file was chosen or its reader
    never fired [onload]. *)
Definition handleCameraCapture (rendered : State) (file : option (Z * option string))
           (st : State) : State :=
  match file with
  | Some (now, Some dataUrl) =>
      let newImage :=
        ImageData.mk ("camera-" ++ showZ now)%string dataUrl None (mkPoint 0 0) 1%float None in
      setCurrentImageIndex (Z.of_nat (List.length (images rendered)))
        (setImages (fun prev => (prev ++ [newImage])%list) st)
  | _ => st
  end.

(** [prev.map((img, index) => ...)] of lines 160-164. *)
Fixpoint mapi {A B} (f : A -> Z -> B) (i : Z) (l : list A) : list B :=
  match l with
  | [] => []
  | a :: l => f a i :: mapi f (i + 1) l
  end.

(** Lines 149-169.  [getCroppedImg] gives the string the promise resolves
    with, or [None] when it rejects (the rejection is caught and logged).
    [rendered] is the render whose state the handler closed over; the
    update of [images] applies to the state current when the promise
    settles. *)
Definition handleCrop
           (getCroppedImg : option string -> option CropImage.PixelCrop -> option string)
           (rendered st : State) : State :=
  if currentImageIndex rendered =? -1 then st
  else
    match at_ (images rendered) (currentImageIndex rendered) with
    | None => st
    | Some currentImage =>
        match getCroppedImg (Some (ImageData.src currentImage))
                            (croppedAreaPixels rendered) with
        | Some croppedImg =>
            setImages
              (mapi (fun img index =>
                       if index =? currentImageIndex rendered
                       then ImageData.mk (ImageData.id img) (ImageData.src img)
                              (Some croppedImg) (ImageData.crop img) (ImageData.zoom img)
                              (croppedAreaPixels rendered)
                       else img) 0)
              st
        | None => st
        end
    end.

(** Lines 212-220. *)
Definition removeImage (imageId : string) (st : State) : State :=
  let filtered :=
    filter (fun img => negb (String.eqb (ImageData.id img) imageId)) (images st) in
  let st' := setImages (fun _ => filtered) st in
  if Z.of_nat (List.length filtered) <=? currentImageIndex st
  then setCurrentImageIndex (Z.max 0 (Z.of_nat (List.length filtered) - 1)) st'
  else st'.

(** A click on the grid entry at [index] (line 330); the grid has one
    entry per element of [images]. *)
Definition clickImage (index : nat) (st : State) : State :=
  if Nat.ltb index (List.length (images st))
  then setCurrentImageIndex (Z.of_nat index) st
  else st.

(** ** Export *)

(** What an export handler does, in program order. *)
Inductive Effect :=
| SetIsProcessing (b : bool)
| CreateHighQualityPoster (croppedImageSrc templateSrc : string) (aspectRatio : float)
| Click (download : string) (href : DataURL)      (* [link.click()] *)
| Timeout (ms : Z).                               (* the awaited [setTimeout] *)

(** How an [async] handler ends: it returns, an awaited promise rejects
    and the rejection leaves the handler, or an awaited promise never
    settles. *)
Inductive Completion := Returned | Threw (r : Compositor.Reason) | Stalled.

Definition Trace : Type := list Effect * Completion.

(** The value of [e!] where [e] is a [string | null] assigned to the
    [src] of an image. *)
Definition nonNull (s : option string) : string :=
  match s with Some s => s | None => "null" end.

(** Lines 177-193: the loop from index [i] on, [completedImages] being the
    elements not yet visited, and the statement after the loop. *)
Fixpoint exportFrom (createHighQualityPoster : string -> string -> float -> Compositor.Promise)
         (template : string) (aspectRatio : float)
         (i : nat) (completedImages : list ImageData.t) : Trace :=
  match completedImages with
  | [] => ([SetIsProcessing false], Returned)
  | image :: rest =>
      let src := nonNull (ImageData.croppedImage image) in
      let call := CreateHighQualityPoster src template aspectRatio in
      match createHighQualityPoster src template aspectRatio with
      | Compositor.Resolved dataUrl =>
          let '(t, c) := exportFrom createHighQualityPoster template aspectRatio (S i) rest in
          (call :: Click ("poster-" ++ showNat (i + 1) ++ ".png")%string dataUrl
                :: Timeout 500 :: t, c)
      | Compositor.Rejected r => ([call], Threw r)
      | Compositor.Pending => ([call], Stalled)
      end
  end.

Definition completedImages (st : State) : list ImageData.t :=
  filter (fun img => truthy (ImageData.croppedImage img)) (images st).

(** Lines 171-194. *)
Definition handleDownloadAll
           (createHighQualityPoster : string -> string -> float -> Compositor.Promise)
           (st : State) : Trace :=
  if Nat.eqb (List.length (completedImages st)) 0 then ([], Returned)
  else
    let '(t, c) := exportFrom createHighQualityPoster (template st) (aspectRatio st)
                              0 (completedImages st) in
    (SetIsProcessing true :: t, c).

(** Lines 196-210. *)
Definition handleDownloadSingle
           (createHighQualityPoster : string -> string -> float -> Compositor.Promise)
           (imageId : string) (st : State) : Trace :=
  match find (fun img => String.eqb (ImageData.id img) imageId) (images st) with
  | None => ([], Returned)
  | Some image =>
      if negb (truthy (ImageData.croppedImage image)) then ([], Returned)
      else
        let src := nonNull (ImageData.croppedImage image) in
        let call := CreateHighQualityPoster src (template st) (aspectRatio st) in
        match createHighQualityPoster src (template st) (aspectRatio st) with
        | Compositor.Resolved dataUrl =>
            ([call; Click ("poster-" ++ imageId ++ ".png")%string dataUrl], Returned)
        | Compositor.Rejected r => ([call], Threw r)
        | Compositor.Pending => ([call], Stalled)
        end
  end.

(** The file names handed to the download mechanism, in order. *)
Definition downloads (t : Trace) : list string :=
  flat_map (fun e => match e with Click n _ => [n] | _ => [] end) (fst t).

(** The sources posters were composed from, in order. *)
Definition composedFrom (t : Trace) : list string :=
  flat_map (fun e => match e with CreateHighQualityPoster c _ _ => [c] | _ => [] end) (fst t).

(** One round of a sequential export, for the [n]-th cropped image [c]
    whose poster is [png c]: the poster is composed, handed to the
    download mechanism as [poster-<n>.png], and the delay follows. *)
Definition round (png : string -> DataURL) (template : string) (aspectRatio : float)
           (entry : nat * string) : list Effect :=
  let '(n, c) := entry in
  [CreateHighQualityPoster c template aspectRatio;
   Click ("poster-" ++ showNat n ++ ".png")%string (png c);
   Timeout 500].

(** The items with a cropped image that is not null. *)
Definition committed (st : State) : list ImageData.t :=
  filter (fun img => match ImageData.croppedImage img with Some _ => true | None => false end)
         (images st).

(** The active-item pointer designates no item or an element of [images]. *)
Definition validIndex (st : State) : Prop :=
  currentImageIndex st = -1 \/
  0 <= currentImageIndex st < Z.of_nat (List.length (images st)).

(** ** The session as a state machine *)

(** What can happen to the component between two renders.  A handler that
    finishes later than it starts ([handleCameraCapture], [handleCrop]) is
    taken here to finish before anything else happens, so that the state
    it closed over is the current one. *)
Inductive Event :=
| Upload (files : option nat) (reads : list FileRead)
| CameraCapture (file : option (Z * option string))
| CropChange (c : Point)
| ZoomChange (z : float)
| CropComplete (croppedArea croppedAreaPixels : option CropImage.PixelCrop)
| Commit
| ClickImage (index : nat)
| Remove (imageId : string)
| SelectMode (m : AspectMode).

Definition handle
           (getCroppedImg : option string -> option CropImage.PixelCrop -> option string)
           (ev : Event) (st : State) : State :=
  match ev with
  | Upload files reads => handleUpload files reads st
  | CameraCapture file => handleCameraCapture st file st
  | CropChange c => setCrop c st
  | ZoomChange z => setZoom z st
  | CropComplete a p => onCropComplete a p st
  | Commit => handleCrop getCroppedImg st st
  | ClickImage index => clickImage index st
  | Remove imageId => removeImage imageId st
  | SelectMode m => selectMode m st
  end.

(** The states a session can be in. *)
Inductive reachable
          (getCroppedImg : option string -> option CropImage.PixelCrop -> option string)
  : State -> Prop :=
| reachable_initial : reachable getCroppedImg initial
| reachable_step ev st :
    reachable getCroppedImg st -> reachable getCroppedImg (handle getCroppedImg ev st).

(** The state after the state updates of an export handler's trace. *)
Definition applyEffect (st : State) (e : Effect) : State :=
  match e with
  | SetIsProcessing b => setIsProcessing b st
  | _ => st
  end.

Definition afterExport (t : Trace) (st : State) : State :=
  fold_left applyEffect (fst t) st.

(** Lines 358 and 372: the cropper and the crop button are rendered. *)
Definition cropSectionVisible (st : State) : bool :=
  match currentImage st with
  | Some img => negb (truthy (ImageData.croppedImage img))
  | None => false
  end.

(** Line 382: the poster previews and the export button are rendered. *)
Definition previewVisible (st : State) : bool :=
  existsb (fun img => truthy (ImageData.croppedImage img)) (images st).

(** The number of [reads] whose result is a string. *)
Definition stringResults (reads : list FileRead) : nat :=
  List.length (filter (fun r => match result r with Some _ => true | None => false end) reads).

(** The item [handleCrop] writes for [img]. *)
Definition cropped (img : ImageData.t) (croppedImg : string)
           (area : option CropImage.PixelCrop) : ImageData.t :=
  ImageData.mk (ImageData.id img) (ImageData.src img) (Some croppedImg)
               (ImageData.crop img) (ImageData.zoom img) area.

(** The items one upload creates, in the order in which the readers
    fired. *)
Definition uploadedItems (reads : list FileRead) : list ImageData.t :=
  flat_map (fun r => match result r with
                     | Some dataUrl => [uploaded r dataUrl]
                     | None => []
                     end) reads.

(** The item a camera capture creates. *)
Definition captured (now : Z) (dataUrl : string) : ImageData.t :=
  ImageData.mk ("camera-" ++ showZ now)%string dataUrl None (mkPoint 0 0) 1%float None.

(** The pointer designates an item whenever there is one; with no item it
    is -1 or 0. *)
Definition pointerOK (st : State) : Prop :=
  (images st = [] /\ (currentImageIndex st = -1 \/ currentImageIndex st = 0)) \/
  0 <= currentImageIndex st < Z.of_nat (List.length (images st)).

(** The crop position and zoom of an item are those it was created with,
    and an item without a cropped image has no crop rectangle. *)
Definition untouched (img : ImageData.t) : Prop :=
  ImageData.crop img = mkPoint 0 0 /\
  ImageData.zoom img = 1%float /\
  (ImageData.croppedImage img = None -> ImageData.croppedAreaPixels img = None).

(** The ratio and the template belong to the same mode. *)
Definition modeConsistent (st : State) : Prop :=
  exists m, aspectRatio st = ratioOf m /\ template st = templateOf m.

(** The value of the processing indicator after the effects [l], when it
    was [b] before. *)
Definition lastProcessing (l : list Effect) (b : bool) : bool :=
  fold_left (fun b e => match e with SetIsProcessing b' => b' | _ => b end) l b.

(** The name of the [n]-th download of a batch export. *)
Definition batchName (n : nat) : string := ("poster-" ++ showNat n ++ ".png")%string.

(** Every composition of a trace uses the given template and ratio. *)
Definition composedWith (template : string) (aspectRatio : float) (t : Trace) : Prop :=
  forall c t' a', In (CreateHighQualityPoster c t' a') (fst t) ->
                  t' = template /\ a' = aspectRatio.

End App.

(* ------------------------------------------------------------------ *)
(** * Sample data *)

Module Demo.
Import Canvas2D.

(** An opaque 800 by 600 photograph. *)
Definition photo : Bitmap :=
  mkBitmap 800 600 (fun x y => mkRGBA (x mod 256) (y mod 256) 7 255).

(** A template with an opaque red band on the left and nothing elsewhere. *)
Definition frame : Bitmap :=
  mkBitmap 1600 1200 (fun x y => if x <? 100 then mkRGBA 200 0 0 255 else transparent).

(** A decoder that reads the landscape template as [frame], every other
    data URL as [photo], and nothing else. *)
Definition decode (s : string) : option Bitmap :=
  if String.eqb s App.template4 then Some frame
  else if String.prefix "data:" s then Some photo
  else None.

(** The Landscape poster of [photo] under [frame]. *)
Definition poster : DataURL :=
  toDataURL "image/png"
    (mkCanvas 1600 1200
       [DrawImage photo 0 0 1600 1200; DrawImage frame 0 0 1600 1200]).

Definition item (id src : string) (croppedImage : option string) : ImageData.t :=
  ImageData.mk id src croppedImage (ImageData.mkPoint 0 0) 1%float None.

(** A session with four items, the third of them not cropped yet, the
    first one active, and a crop rectangle reported for the first one. *)
Definition session : App.State :=
  App.mkState
    [item "a" "data:photo-a" (Some "data:crop-a"%string);
     item "b" "data:photo-b" (Some "data:crop-b"%string);
     item "c" "data:photo-c" None;
     item "d" "data:photo-d" (Some "data:crop-d"%string)]
    0 (ImageData.mkPoint 0 0) 1%float
    (Some (CropImage.mkPixelCrop 100 50 400 450))
    (4 / 3)%float App.template4 false.

(** A cropper that answers with one fixed data URL whenever the extractor
    accepts the rectangle. *)
Definition cropper (imageSrc : option string) (pixelCrop : option CropImage.PixelCrop)
  : option string :=
  match CropImage.getCroppedImg decode imageSrc pixelCrop with
  | CropImage.Ok _ => Some "data:cropped"%string
  | CropImage.Err _ => None
  end.

(** A session whose second item carries a cropped image that no longer
    decodes. *)
Definition damaged : App.State :=
  App.mkState
    [item "a" "data:photo-a" (Some "data:crop-a"%string);
     item "b" "data:photo-b" (Some "blob:revoked"%string);
     item "d" "data:photo-d" (Some "data:crop-d"%string)]
    0 (ImageData.mkPoint 0 0) 1%float None (4 / 3)%float App.template4 false.

(** Two files read as data URLs, the second reader firing first. *)
Definition reads : list App.FileRead :=
  [App.mkFileRead 1 1700000000000 (Some "data:photo-2"%string);
   App.mkFileRead 0 1700000000001 (Some "data:photo-1"%string)].

(** The same two files when the second one cannot be read as a string. *)
Definition badReads : list App.FileRead :=
  [App.mkFileRead 1 1700000000000 None;
   App.mkFileRead 0 1700000000001 (Some "data:photo-1"%string)].

End Demo.

(* ------------------------------------------------------------------ *)
(** * Properties of the compositor *)

Section CompositorFacts.
Import Canvas2D Compositor.

Variable decode : string -> option Bitmap.

Lemma start_fresh ctxAvailable croppedImageSrc templateSrc (aspectRatio : float) :
  start ctxAvailable croppedImageSrc templateSrc aspectRatio =
  if PrimFloat.eqb aspectRatio (3 / 4)%float
  then fresh ctxAvailable croppedImageSrc templateSrc 1200 1600
  else fresh ctxAvailable croppedImageSrc templateSrc 1600 1200.
Proof. unfold start. destruct (PrimFloat.eqb _ _); reflexivity. Qed.

(** Settlement orders without repetition, listed. *)
Lemma nodup_orders (order : list Which) :
  NoDup order ->
  order = [] \/ order = [CroppedEl] \/ order = [TemplateEl] \/
  order = [CroppedEl; TemplateEl] \/ order = [TemplateEl; CroppedEl].
Proof.
  intros Hnd.
  destruct order as [|a [|b [|c rest]]].
  - auto.
  - destruct a; auto.
  - inversion Hnd as [|? ? Hin _]; subst.
    destruct a, b; auto; exfalso; apply Hin; left; reflexivity.
  - exfalso.
    inversion Hnd as [|? ? Ha Hnd1]; subst.
    inversion Hnd1 as [|? ? Hb _]; subst.
    destruct a, b, c; simpl in Ha, Hb; tauto.
Qed.

(** Drawing and settling never resize the canvas. *)
Lemma drawImage_size el dx dy dw dh c :
  width (drawImage el dx dy dw dh c) = width c /\
  height (drawImage el dx dy dw dh c) = height c.
Proof. unfold drawImage. destruct (bitmap el); auto. Qed.

Lemma onImageLoad_size e :
  width (posterCanvas (onImageLoad e)) = width (posterCanvas e) /\
  height (posterCanvas (onImageLoad e)) = height (posterCanvas e).
Proof.
  unfold onImageLoad; cbn.
  destruct (imagesLoaded e + 1 =? totalImages); [|auto].
  destruct (ctx e); cbn; [|auto].
  split.
  - rewrite (proj1 (drawImage_size _ _ _ _ _ _)).
    now rewrite (proj1 (drawImage_size _ _ _ _ _ _)).
  - rewrite (proj2 (drawImage_size _ _ _ _ _ _)).
    now rewrite (proj2 (drawImage_size _ _ _ _ _ _)).
Qed.

Lemma settle_size e w :
  width (posterCanvas (settle decode e w)) = width (posterCanvas e) /\
  height (posterCanvas (settle decode e w)) = height (posterCanvas e).
Proof.
  unfold settle. destruct (decode _).
  - destruct (onImageLoad_size (loaded w b e)) as [Hw Hh].
    rewrite Hw, Hh. destruct w; auto.
  - auto.
Qed.

Lemma settle_sized W H e w : sized W H e -> sized W H (settle decode e w).
Proof.
  intros (Hw & Hh & Hd).
  destruct (settle_size e w) as [Hw' Hh'].
  split; [congruence|]. split; [congruence|].
  intros d. unfold settle.
  destruct (decode _) as [b|].
  - unfold onImageLoad; cbn.
    replace (ctx (loaded w b e)) with (ctx e) by (destruct w; reflexivity).
    replace (promise (loaded w b e)) with (promise e) by (destruct w; reflexivity).
    replace (posterCanvas (loaded w b e)) with (posterCanvas e) by (destruct w; reflexivity).
    destruct (imagesLoaded (loaded w b e) + 1 =? totalImages); [|cbn; apply Hd].
    destruct (ctx e); cbn.
    + destruct (promise e) eqn:Hp; cbn; try (intros; now apply Hd).
      intros Heq; injection Heq as <-. cbn.
      rewrite (proj1 (drawImage_size _ _ _ _ _ _)), (proj1 (drawImage_size _ _ _ _ _ _)).
      rewrite (proj2 (drawImage_size _ _ _ _ _ _)), (proj2 (drawImage_size _ _ _ _ _ _)).
      auto.
    + destruct (promise e) eqn:Hp; cbn; solve [discriminate | intros; now apply Hd].
  - cbn. destruct (promise e) eqn:Hp; cbn; solve [discriminate | intros; now apply Hd].
Qed.

Lemma run_sized W H order e : sized W H e -> sized W H (run decode order e).
Proof.
  revert e. induction order as [|w order IH]; intros e He; [exact He|].
  change (run decode (w :: order) e) with (run decode order (settle decode e w)).
  apply IH, settle_sized, He.
Qed.

Lemma fresh_sized ctxAvailable cs ts W H : sized W H (fresh ctxAvailable cs ts W H).
Proof. repeat split; cbn in *; discriminate. Qed.

Lemma ratio_portrait : PrimFloat.eqb (App.ratioOf App.Portrait) (3 / 4)%float = true.
Proof. reflexivity. Qed.

Lemma ratio_landscape : PrimFloat.eqb (App.ratioOf App.Landscape) (3 / 4)%float = false.
Proof. reflexivity. Qed.

(** Runs the handlers of a listed settlement order symbolically. *)
Ltac settle_all :=
  cbv;
  repeat match goal with
         | H : decode _ = _ |- _ => rewrite !H; cbv
         end.

(** Case analysis on the order and on what the two sources decode to. *)
Ltac by_cases Hnd cs ts :=
  let Hc := fresh "Hc" in
  let Ht := fresh "Ht" in
  destruct (decode cs) eqn:Hc;
  destruct (decode ts) eqn:Ht;
  destruct (nodup_orders _ Hnd) as [->|[->|[->|[->| ->]]]].

(** With both sources decodable and a context at hand, the promise is
    resolved once both elements have settled, in either order. *)
Lemma both_loaded_resolved cs ts W H order bc bt :
  decode cs = Some bc -> decode ts = Some bt ->
  NoDup order -> In CroppedEl order -> In TemplateEl order ->
  promise (run decode order (fresh true cs ts W H)) =
  Resolved (toDataURL "image/png"
              (mkCanvas W H [DrawImage bc 0 0 W H; DrawImage bt 0 0 W H])).
Proof.
  intros Hc Ht Hnd HinC HinT.
  destruct (nodup_orders order Hnd) as [->|[->|[->|[->| ->]]]];
    try (cbn in HinC, HinT; intuition discriminate);
    settle_all; reflexivity.
Qed.

(** Whatever is resolved is the canvas with the cropped image drawn
    first and the template second, both over the whole surface. *)
Lemma resolved_shape ctxAvailable cs ts W H order d :
  NoDup order ->
  promise (run decode order (fresh ctxAvailable cs ts W H)) = Resolved d ->
  exists bc bt,
    decode cs = Some bc /\ decode ts = Some bt /\
    d = toDataURL "image/png"
          (mkCanvas W H [DrawImage bc 0 0 W H; DrawImage bt 0 0 W H]).
Proof.
  intros Hnd.
  destruct ctxAvailable; by_cases Hnd cs ts; settle_all;
    try discriminate;
    intros Hd; injection Hd as <-; eauto.
Qed.

(** Nothing is drawn, and no poster exists, unless both elements have
    settled with decoded data. *)
Lemma nothing_drawn_early ctxAvailable cs ts W H order :
  NoDup order ->
  ~ (In CroppedEl order /\ In TemplateEl order /\
     decode cs <> None /\ decode ts <> None) ->
  ops (posterCanvas (run decode order (fresh ctxAvailable cs ts W H))) = [] /\
  poster (promise (run decode order (fresh ctxAvailable cs ts W H))) = None.
Proof.
  intros Hnd Hnot.
  by_cases Hnd cs ts;
  try (exfalso; apply Hnot; cbn; intuition discriminate);
  settle_all; auto.
Qed.

(** Drawing happens only in the call of [onImageLoad] that brings the
    counter to [totalImages]. *)
Lemma drawn_counter ctxAvailable cs ts W H order :
  NoDup order ->
  ops (posterCanvas (run decode order (fresh ctxAvailable cs ts W H))) <> [] ->
  imagesLoaded (run decode order (fresh ctxAvailable cs ts W H)) = totalImages.
Proof.
  intros Hnd.
  destruct ctxAvailable; by_cases Hnd cs ts; settle_all;
    intros Hne; first [reflexivity | exfalso; apply Hne; reflexivity].
Qed.

(** The two complete orders end with the same canvas and the same poster. *)
Lemma order_independent ctxAvailable cs ts W H :
  posterCanvas (run decode [CroppedEl; TemplateEl] (fresh ctxAvailable cs ts W H)) =
  posterCanvas (run decode [TemplateEl; CroppedEl] (fresh ctxAvailable cs ts W H)) /\
  poster (promise (run decode [CroppedEl; TemplateEl] (fresh ctxAvailable cs ts W H))) =
  poster (promise (run decode [TemplateEl; CroppedEl] (fresh ctxAvailable cs ts W H))).
Proof.
  destruct ctxAvailable;
    destruct (decode cs) eqn:Hc; destruct (decode ts) eqn:Ht;
    settle_all; auto.
Qed.

(** A source that fails to decode rejects the promise with the error
    event of an element whose source failed, as soon as the failing
    element has settled. *)
Lemma failure_rejects ctxAvailable cs ts W H order :
  NoDup order ->
  (In CroppedEl order /\ decode cs = None) \/
  (In TemplateEl order /\ decode ts = None) ->
  exists w, promise (run decode order (fresh ctxAvailable cs ts W H)) =
            Rejected (ImageError w) /\
            In w order /\
            decode (src (element w (fresh ctxAvailable cs ts W H))) = None.
Proof.
  intros Hnd Hfail.
  by_cases Hnd cs ts;
  try (exfalso; cbn in Hfail; intuition discriminate);
  first [ exists CroppedEl; settle_all; repeat split; cbn; solve [auto]
        | exists TemplateEl; settle_all; repeat split; cbn; solve [auto] ].
Qed.

End CompositorFacts.

(* ------------------------------------------------------------------ *)
(** * Properties of drawing *)

Section DrawingFacts.
Import Canvas2D.

(** An opaque source pixel replaces whatever lies beneath it. *)
Lemma sourceOver_opaque (s d : RGBA) : opaque s = true -> sourceOver s d = s.
Proof.
  unfold opaque. intros Ha. apply Z.eqb_eq in Ha.
  destruct s as [r g b a]. cbn in Ha. subst a.
  unfold sourceOver. cbn -[Z.mul Z.div Z.add Z.eqb].
  replace (alpha d * (255 - 255) / 255) with 0
    by (rewrite Z.sub_diag, Z.mul_0_r; reflexivity).
  rewrite !Z.mul_0_r, !Z.add_0_r. cbn -[Z.mul Z.div].
  rewrite !Z.div_mul by discriminate. reflexivity.
Qed.

(** Two full-surface draws: where the upper image is opaque, the canvas
    shows the upper image. *)
Lemma render_two_layers (f : Resampler) (lower upper : Bitmap) (W H x y : Z) :
  0 <= x < W -> 0 <= y < H ->
  opaque (f upper W H x y) = true ->
  render f (mkCanvas W H [DrawImage lower 0 0 W H; DrawImage upper 0 0 W H]) x y =
  f upper W H x y.
Proof.
  intros Hx Hy Hop. unfold render. cbn -[Z.leb Z.ltb Z.sub Z.add].
  rewrite !Z.add_0_l, !Z.sub_0_r.
  replace (0 <=? x) with true by (symmetry; apply Z.leb_le; lia).
  replace (x <? W) with true by (symmetry; apply Z.ltb_lt; lia).
  replace (0 <=? y) with true by (symmetry; apply Z.leb_le; lia).
  replace (y <? H) with true by (symmetry; apply Z.ltb_lt; lia).
  cbn. apply sourceOver_opaque, Hop.
Qed.

End DrawingFacts.

(* ------------------------------------------------------------------ *)
(** * The poster compositor: main results *)

Section CompositorClaims.
Import Canvas2D Compositor.

(** C1. For every cropped image, template and aspect mode, the canvas of
    [createHighQualityPoster], and the poster the promise is resolved
    with, measure exactly 1200 by 1600 in Portrait mode (ratio 3/4) and
    1600 by 1200 in Landscape mode (ratio 4/3, the initial mode),
    whatever the two sources decode to; and a poster is produced once
    both sources have decoded. *)
Theorem poster_dimensions :
  forall (decode : string -> option Bitmap) (ctxAvailable : bool)
         (croppedImageSrc templateSrc : string) (m : App.AspectMode)
         (order : list Which),
    let e := createHighQualityPoster decode ctxAvailable croppedImageSrc templateSrc
                                     (App.ratioOf m) order in
    let size := match m with
                | App.Portrait => (1200, 1600)
                | App.Landscape => (1600, 1200)
                end in
    App.aspectRatio App.initial = App.ratioOf App.Landscape /\
    (width (posterCanvas e), height (posterCanvas e)) = size /\
    (forall d, promise e = Resolved d ->
               (width (surface d), height (surface d)) = size) /\
    (ctxAvailable = true ->
     decode croppedImageSrc <> None -> decode templateSrc <> None ->
     NoDup order -> In CroppedEl order -> In TemplateEl order ->
     exists d, promise e = Resolved d).
Proof.
  intros decode ctxAvailable cs ts m order e size.
  split; [reflexivity|].
  assert (Hs : sized (fst size) (snd size) e).
  { subst e size. unfold createHighQualityPoster. rewrite start_fresh.
    destruct m; [rewrite ratio_landscape | rewrite ratio_portrait];
      apply run_sized, fresh_sized. }
  destruct Hs as (Hw & Hh & Hd).
  split; [rewrite Hw, Hh; destruct m; reflexivity|].
  split.
  - intros d Hp. destruct (Hd d Hp) as [-> ->]. destruct m; reflexivity.
  - intros -> Hc Ht Hnd HinC HinT.
    destruct (decode cs) as [bc|] eqn:Ec; [|contradiction].
    destruct (decode ts) as [bt|] eqn:Et; [|contradiction].
    subst e. unfold createHighQualityPoster. rewrite start_fresh.
    destruct (PrimFloat.eqb _ _); eexists;
      eapply both_loaded_resolved; eauto.
Qed.

(** C2. Within one call, nothing is drawn on the canvas and no poster
    exists until both the cropped image and the template have settled
    with decoded data; drawing happens only when the counter of loaded
    images is 2; and the canvas and the poster are the same whichever of
    the two settles first. *)
Theorem join_before_drawing :
  forall (decode : string -> option Bitmap) (ctxAvailable : bool)
         (croppedImageSrc templateSrc : string) (aspectRatio : float)
         (order : list Which),
    NoDup order ->
    let call := createHighQualityPoster decode ctxAvailable croppedImageSrc templateSrc
                                        aspectRatio in
    (~ (In CroppedEl order /\ In TemplateEl order /\
        decode croppedImageSrc <> None /\ decode templateSrc <> None) ->
     ops (posterCanvas (call order)) = [] /\ poster (promise (call order)) = None) /\
    (ops (posterCanvas (call order)) <> [] -> imagesLoaded (call order) = 2) /\
    posterCanvas (call [CroppedEl; TemplateEl]) =
    posterCanvas (call [TemplateEl; CroppedEl]) /\
    poster (promise (call [CroppedEl; TemplateEl])) =
    poster (promise (call [TemplateEl; CroppedEl])).
Proof.
  intros decode ctxAvailable cs ts a order Hnd call. subst call.
  unfold createHighQualityPoster. rewrite start_fresh.
  destruct (PrimFloat.eqb _ _);
    (split; [apply nothing_drawn_early, Hnd|];
     split; [apply drawn_counter, Hnd|];
     apply order_independent).
Qed.

(** C3. A poster is the canvas on which the cropped image was drawn
    first and the template second, each stretched over the whole surface;
    at every pixel of the poster where the stretched template is fully
    opaque, the poster shows the template's pixel. *)
Theorem template_drawn_on_top :
  forall (decode : string -> option Bitmap) (ctxAvailable : bool)
         (croppedImageSrc templateSrc : string) (aspectRatio : float)
         (order : list Which) (d : DataURL),
    NoDup order ->
    promise (createHighQualityPoster decode ctxAvailable croppedImageSrc templateSrc
                                     aspectRatio order) = Resolved d ->
    exists cropped template,
      decode croppedImageSrc = Some cropped /\
      decode templateSrc = Some template /\
      let W := width (surface d) in
      let H := height (surface d) in
      ops (surface d) = [DrawImage cropped 0 0 W H; DrawImage template 0 0 W H] /\
      forall (f : Resampler) (x y : Z),
        0 <= x < W -> 0 <= y < H ->
        opaque (f template W H x y) = true ->
        render f (surface d) x y = f template W H x y.
Proof.
  intros decode ctxAvailable cs ts a order d Hnd.
  unfold createHighQualityPoster. rewrite start_fresh.
  destruct (PrimFloat.eqb _ _); intros Hp;
    destruct (resolved_shape _ _ _ _ _ _ _ _ Hnd Hp) as (bc & bt & Hc & Ht & ->);
    exists bc, bt; (split; [exact Hc|]); (split; [exact Ht|]);
    cbn -[render]; (split; [reflexivity|]);
    intros f x y Hx Hy Hop; now apply render_two_layers.
Qed.

(** C4. If the cropped image or the template fails to decode, the call
    fails as a whole: nothing is ever drawn, the promise is never
    resolved, and once a failing element has settled the promise is
    rejected with the error event of an element whose source failed. *)
Theorem decode_failure_rejects :
  forall (decode : string -> option Bitmap) (ctxAvailable : bool)
         (croppedImageSrc templateSrc : string) (aspectRatio : float)
         (order : list Which),
    NoDup order ->
    decode croppedImageSrc = None \/ decode templateSrc = None ->
    let e := createHighQualityPoster decode ctxAvailable croppedImageSrc templateSrc
                                     aspectRatio order in
    ops (posterCanvas e) = [] /\
    poster (promise e) = None /\
    ((In CroppedEl order /\ decode croppedImageSrc = None) \/
     (In TemplateEl order /\ decode templateSrc = None) ->
     exists w, promise e = Rejected (ImageError w) /\
               In w order /\
               decode (match w with
                       | CroppedEl => croppedImageSrc
                       | TemplateEl => templateSrc
                       end) = None).
Proof.
  intros decode ctxAvailable cs ts a order Hnd Hfail e. subst e.
  unfold createHighQualityPoster. rewrite start_fresh.
  assert (Hnot : ~ (In CroppedEl order /\ In TemplateEl order /\
                    decode cs <> None /\ decode ts <> None))
    by (intros (_ & _ & Hc & Ht); destruct Hfail; contradiction).
  assert (Hgen : forall W H,
             let e := run decode order (fresh ctxAvailable cs ts W H) in
             ops (posterCanvas e) = [] /\
             poster (promise e) = None /\
             ((In CroppedEl order /\ decode cs = None) \/
              (In TemplateEl order /\ decode ts = None) ->
              exists w, promise e = Rejected (ImageError w) /\
                        In w order /\
                        decode (match w with CroppedEl => cs | TemplateEl => ts end) = None)).
  { intros W H e0. subst e0.
    destruct (nothing_drawn_early decode ctxAvailable cs ts W H order Hnd Hnot)
      as [Hops Hpost].
    split; [exact Hops|]. split; [exact Hpost|].
    intros Hset.
    destruct (failure_rejects decode ctxAvailable cs ts W H order Hnd Hset)
      as (w & Hp & Hin & Hsrc).
    exists w. repeat split; auto. destruct w; exact Hsrc. }
  destruct (PrimFloat.eqb _ _); apply Hgen.
Qed.

(** Proves that a listed order has no repetition. *)
Ltac nodup := repeat constructor; cbn; intuition discriminate.

(** C1 at the sample data: a Portrait poster of the photograph under the
    frame exists and measures 1200 by 1600. *)
Lemma poster_dimensions_witness :
  exists d,
    promise (createHighQualityPoster Demo.decode true "data:photo" App.template4
               (App.ratioOf App.Portrait) [TemplateEl; CroppedEl]) = Resolved d /\
    (width (surface d), height (surface d)) = (1200, 1600).
Proof.
  destruct (poster_dimensions Demo.decode true "data:photo" App.template4
                              App.Portrait [TemplateEl; CroppedEl])
    as (_ & _ & Hsize & Hex).
  destruct Hex as [d Hd].
  - reflexivity.
  - discriminate.
  - discriminate.
  - nodup.
  - cbn; auto.
  - cbn; auto.
  - exists d. split; [exact Hd | exact (Hsize d Hd)].
Defined.

(** C2 at the sample data: with only the template settled, the canvas is
    blank and there is no poster. *)
Lemma join_before_drawing_witness :
  ops (posterCanvas (createHighQualityPoster Demo.decode true "data:photo" App.template4
                       (App.ratioOf App.Landscape) [TemplateEl])) = [] /\
  poster (promise (createHighQualityPoster Demo.decode true "data:photo" App.template4
                     (App.ratioOf App.Landscape) [TemplateEl])) = None.
Proof.
  destruct (join_before_drawing Demo.decode true "data:photo" App.template4
                                (App.ratioOf App.Landscape) [TemplateEl])
    as (Hearly & _).
  - nodup.
  - apply Hearly. cbn. intuition discriminate.
Defined.

(** C3 at the sample data: inside the red band of the frame the
    Landscape poster is red, not the photograph. *)
Lemma template_drawn_on_top_witness :
  exists d,
    promise (createHighQualityPoster Demo.decode true "data:photo" App.template4
               (App.ratioOf App.Landscape) [CroppedEl; TemplateEl]) = Resolved d /\
    render nearest (surface d) 5 5 = mkRGBA 200 0 0 255.
Proof.
  eexists. split; [reflexivity|].
  destruct (template_drawn_on_top Demo.decode true "data:photo" App.template4
              (App.ratioOf App.Landscape) [CroppedEl; TemplateEl] _
              ltac:(nodup) eq_refl)
    as (cropped & template & Hc & Ht & _ & Hpix).
  injection Ht as <-.
  rewrite Hpix.
  - reflexivity.
  - cbn; lia.
  - cbn; lia.
  - reflexivity.
Defined.

(** C4 at the sample data: a template that does not decode rejects the
    promise although the photograph loaded first. *)
Lemma decode_failure_rejects_witness :
  exists w,
    promise (createHighQualityPoster Demo.decode true "data:photo" "broken"
               (App.ratioOf App.Landscape) [CroppedEl; TemplateEl]) =
    Rejected (ImageError w).
Proof.
  destruct (decode_failure_rejects Demo.decode true "data:photo" "broken"
              (App.ratioOf App.Landscape) [CroppedEl; TemplateEl])
    as (_ & _ & Hrej).
  - nodup.
  - right. reflexivity.
  - destruct Hrej as (w & Hp & _).
    + right. split; [cbn; auto | reflexivity].
    + exists w. exact Hp.
Defined.

End CompositorClaims.


(* ------------------------------------------------------------------ *)
(** * The crop extractor: main results *)

Section CropClaims.
Import Canvas2D CropImage.

(** C5. For a decodable source [s] and a rectangle within its bounds,
    [getCroppedImg] returns an image of exactly [width r] by [height r]
    whose pixel at [(i, j)] is the pixel of [s] at [(x r + i, y r + j)]:
    the rectangle, copied without scaling. *)
Theorem crop_is_exact_region :
  forall (decode : string -> option Bitmap) (imageSrc : string)
         (s : Bitmap) (r : PixelCrop),
    decode imageSrc = Some s ->
    0 <= x r -> 0 <= y r ->
    x r + width r <= naturalWidth s -> y r + height r <= naturalHeight s ->
    0 < width r -> 0 < height r ->
    exists img,
      getCroppedImg decode (Some imageSrc) (Some r) = Ok img /\
      naturalWidth img = width r /\
      naturalHeight img = height r /\
      forall i j, 0 <= i < width r -> 0 <= j < height r ->
                  pixelAt img i j = pixelAt s (x r + i) (y r + j).
Proof.
  intros decode imageSrc s r Hdec Hx Hy Hw Hh Hpw Hph.
  exists (copyRegion s r).
  unfold getCroppedImg, wellFormed, fits. rewrite Hdec.
  replace (0 <=? x r) with true by (symmetry; apply Z.leb_le; lia).
  replace (0 <=? y r) with true by (symmetry; apply Z.leb_le; lia).
  replace (0 <? width r) with true by (symmetry; apply Z.ltb_lt; lia).
  replace (0 <? height r) with true by (symmetry; apply Z.ltb_lt; lia).
  replace (x r + width r <=? naturalWidth s) with true by (symmetry; apply Z.leb_le; lia).
  replace (y r + height r <=? naturalHeight s) with true by (symmetry; apply Z.leb_le; lia).
  cbn. repeat split.
  intros i j Hi Hj.
  replace (0 <=? i) with true by (symmetry; apply Z.leb_le; lia).
  replace (i <? width r) with true by (symmetry; apply Z.ltb_lt; lia).
  replace (0 <=? j) with true by (symmetry; apply Z.leb_le; lia).
  replace (j <? height r) with true by (symmetry; apply Z.ltb_lt; lia).
  reflexivity.
Qed.

(** C5 at the sample data: the rectangle of 400 by 450 at (100, 50) of the
    800 by 600 photograph. *)
Lemma crop_is_exact_region_witness :
  exists img,
    getCroppedImg Demo.decode (Some "data:photo"%string)
                  (Some (mkPixelCrop 100 50 400 450)) = Ok img /\
    naturalWidth img = 400 /\ naturalHeight img = 450 /\
    pixelAt img 3 4 = pixelAt Demo.photo 103 54.
Proof.
  destruct (crop_is_exact_region Demo.decode "data:photo" Demo.photo
                                 (mkPixelCrop 100 50 400 450))
    as (img & Hok & Hw & Hh & Hpix).
  - reflexivity.
  - cbn; lia.
  - cbn; lia.
  - cbn; lia.
  - cbn; lia.
  - cbn; lia.
  - cbn; lia.
  - exists img. repeat split; try assumption.
    apply (Hpix 3 4); cbn; lia.
Defined.

(** C6. [getCroppedImg] fails with [InvalidRectangleError], and so returns
    no image, for a null rectangle, for a rectangle with a negative origin
    or a width or height that is not positive, and for a rectangle that
    reaches beyond the decoded source. *)
Theorem invalid_rectangle_is_refused :
  forall (decode : string -> option Bitmap) (imageSrc : option string)
         (pixelCrop : option PixelCrop),
    (pixelCrop = None \/
     exists r, pixelCrop = Some r /\
               (x r < 0 \/ y r < 0 \/ width r <= 0 \/ height r <= 0 \/
                exists src s, imageSrc = Some src /\ decode src = Some s /\
                              (naturalWidth s < x r + width r \/
                               naturalHeight s < y r + height r))) ->
    getCroppedImg decode imageSrc pixelCrop = Err InvalidRectangleError /\
    forall img, getCroppedImg decode imageSrc pixelCrop <> Ok img.
Proof.
  intros decode imageSrc pixelCrop Hbad.
  assert (He : getCroppedImg decode imageSrc pixelCrop = Err InvalidRectangleError).
  { destruct Hbad as [->|(r & -> & Hr)]; [reflexivity|].
    unfold getCroppedImg.
    destruct (wellFormed r) eqn:Hwf; [|reflexivity]. cbn.
    unfold wellFormed in Hwf.
    apply andb_prop in Hwf as [Hwf Hh]. apply andb_prop in Hwf as [Hwf Hw].
    apply andb_prop in Hwf as [Hx Hy].
    apply Z.leb_le in Hx, Hy. apply Z.ltb_lt in Hw, Hh.
    destruct Hr as [Hr|[Hr|[Hr|[Hr|(src & s & -> & Hdec & Hr)]]]]; try lia.
    rewrite Hdec. unfold fits.
    destruct Hr as [Hr|Hr].
    - replace (x r + width r <=? naturalWidth s) with false
        by (symmetry; apply Z.leb_gt; lia).
      reflexivity.
    - replace (y r + height r <=? naturalHeight s) with false
        by (symmetry; apply Z.leb_gt; lia).
      rewrite andb_false_r. reflexivity. }
  split; [exact He|]. intros img. rewrite He. discriminate.
Qed.

(** C6 at the sample data: a rectangle that starts inside the photograph
    and ends 100 pixels to the right of it. *)
Lemma invalid_rectangle_is_refused_witness :
  getCroppedImg Demo.decode (Some "data:photo"%string)
                (Some (mkPixelCrop 700 0 200 100)) = Err InvalidRectangleError.
Proof.
  apply (invalid_rectangle_is_refused Demo.decode (Some "data:photo"%string)
                                      (Some (mkPixelCrop 700 0 200 100))).
  right. exists (mkPixelCrop 700 0 200 100). split; [reflexivity|].
  right; right; right; right. exists "data:photo"%string, Demo.photo.
  split; [reflexivity|]. split; [reflexivity|].
  left. cbn. lia.
Defined.

End CropClaims.


(* ------------------------------------------------------------------ *)
(** * Properties of the component *)

Section AppFacts.
Import Canvas2D App.

Lemma mapi_length {A B} (f : A -> Z -> B) (l : list A) :
  forall i, List.length (mapi f i l) = List.length l.
Proof. induction l as [|a l IH]; intros i; cbn; [reflexivity | now rewrite IH]. Qed.

Lemma mapi_nth_error {A B} (f : A -> Z -> B) (l : list A) :
  forall i j, nth_error (mapi f i l) j =
              option_map (fun a => f a (i + Z.of_nat j)) (nth_error l j).
Proof.
  induction l as [|a l IH]; intros i j.
  - destruct j; reflexivity.
  - destruct j as [|j]; cbn -[Z.of_nat].
    + now rewrite Z.add_0_r.
    + rewrite IH. destruct (nth_error l j); cbn -[Z.of_nat]; [|reflexivity].
      do 2 f_equal. lia.
Qed.

Lemma at_of_nat (l : list ImageData.t) (i : nat) : at_ l (Z.of_nat i) = nth_error l i.
Proof.
  unfold at_. replace (Z.of_nat i <? 0) with false by (symmetry; apply Z.ltb_ge; lia).
  now rewrite Nat2Z.id.
Qed.

(** A truthy cropped image is a cropped image. *)
Lemma truthy_some (o : option string) : truthy o = true -> exists c, o = Some c.
Proof. destruct o as [c|]; [eauto | discriminate]. Qed.

Lemma truthy_nonempty (c : string) : c <> ""%string -> truthy (Some c) = true.
Proof.
  intros Hc. cbn. destruct (String.eqb c "") eqn:He; [|reflexivity].
  apply String.eqb_eq in He. contradiction.
Qed.

(** The items an export visits all carry a cropped image. *)
Lemma completedImages_some (st : State) :
  forall img, In img (completedImages st) ->
              In img (images st) /\ exists c, ImageData.croppedImage img = Some c.
Proof.
  intros img Hin. apply filter_In in Hin as [Hin Ht].
  split; [exact Hin | now apply truthy_some].
Qed.

(** Where no cropped image is the empty string, the truthy ones are the
    ones that are not null. *)
Lemma completedImages_nonnull (st : State) :
  (forall img, In img (images st) -> ImageData.croppedImage img <> Some ""%string) ->
  completedImages st = committed st.
Proof.
  intros Hne. unfold completedImages, committed. apply filter_ext_in.
  intros img Hin. destruct (ImageData.croppedImage img) as [c|] eqn:Hc; [|reflexivity].
  apply truthy_nonempty. intros ->. now apply (Hne img).
Qed.

(** A list of items that all carry a cropped image, as the list of these. *)
Lemma cropped_list (l : list ImageData.t) :
  (forall img, In img l -> exists c, ImageData.croppedImage img = Some c) ->
  exists cs, map ImageData.croppedImage l = map Some cs.
Proof.
  induction l as [|img l IH]; intros Hall.
  - exists []. reflexivity.
  - destruct (Hall img (or_introl eq_refl)) as [c Hc].
    destruct IH as [cs Hcs]; [intros i Hi; apply Hall; now right|].
    exists (c :: cs). cbn. now rewrite Hc, Hcs.
Qed.

(** The loop, when every composition succeeds: one round per item, in list
    order, numbered from [i + 1], then the reset of the indicator. *)
Lemma exportFrom_success compose png template aspectRatio :
  forall (l : list ImageData.t) (cs : list string) (i : nat),
    map ImageData.croppedImage l = map Some cs ->
    (forall c, In c cs -> compose c template aspectRatio = Compositor.Resolved (png c)) ->
    exportFrom compose template aspectRatio i l =
    ((flat_map (round png template aspectRatio)
               (combine (seq (S i) (List.length cs)) cs)
      ++ [SetIsProcessing false])%list, Returned).
Proof.
  induction l as [|img l IH]; intros cs i Hmap Hok.
  - destruct cs; [reflexivity | discriminate].
  - destruct cs as [|c cs]; [discriminate|].
    cbn in Hmap. injection Hmap as Himg Hl.
    cbn [exportFrom]. rewrite Himg. cbn [nonNull].
    rewrite (Hok c (or_introl eq_refl)).
    rewrite (IH cs (S i) Hl) by (intros c' Hc'; apply Hok; now right).
    cbn [List.length seq combine flat_map round app].
    rewrite Nat.add_1_r. reflexivity.
Qed.

(** The file names of a run of rounds. *)
Lemma downloads_rounds png template aspectRatio (rest : list Effect) (c : Completion) :
  forall (cs : list string) (k : nat),
    downloads ((flat_map (round png template aspectRatio)
                         (combine (seq k (List.length cs)) cs) ++ rest)%list, c) =
    (map (fun n => ("poster-" ++ showNat n ++ ".png")%string) (seq k (List.length cs))
     ++ downloads (rest, c))%list.
Proof.
  induction cs as [|c0 cs IH]; intros k; [reflexivity|].
  unfold downloads in *. cbn [fst] in *.
  cbn [List.length seq combine flat_map round app map].
  f_equal. apply IH.
Qed.

(** Every source the loop composes from is the cropped image of an item
    it was given. *)
Lemma exportFrom_sources compose template aspectRatio :
  forall (l : list ImageData.t) (i : nat) (c : string),
    In c (composedFrom (exportFrom compose template aspectRatio i l)) ->
    exists img, In img l /\ nonNull (ImageData.croppedImage img) = c.
Proof.
  induction l as [|img l IH]; intros i c Hin.
  - cbn in Hin. contradiction.
  - cbn [exportFrom] in Hin.
    destruct (compose _ _ _) as [|d|r].
    + cbn in Hin. destruct Hin as [<-|[]]. exists img. split; [now left | reflexivity].
    + destruct (exportFrom compose template aspectRatio (S i) l) as [t k] eqn:Hrec.
      unfold composedFrom in Hin. cbn in Hin.
      destruct Hin as [<-|Hin].
      * exists img. split; [now left | reflexivity].
      * destruct (IH (S i) c) as (img' & Hin' & Hc).
        { rewrite Hrec. exact Hin. }
        exists img'. split; [now right | exact Hc].
    + cbn in Hin. destruct Hin as [<-|[]]. exists img. split; [now left | reflexivity].
Qed.

End AppFacts.


(* ------------------------------------------------------------------ *)
(** * Export: main results *)

Section ExportClaims.
Import Canvas2D App.

(** C7. Where every cropped image is a non-empty string and every
    composition succeeds (with poster [png c] for cropped image [c]), batch
    export visits exactly the items whose cropped image is not null, in the
    order of [images], one after the other: for the [n]-th of them the
    poster is composed, handed over as [poster-<n>.png] and followed by the
    delay of 500 ms before the next begins, so that the downloads are
    [poster-1.png], [poster-2.png], ...; and single export composes the
    poster of the requested item and hands it over as
    [poster-<id of the item>.png]. *)
Theorem export_sequence_and_names :
  forall (compose : string -> string -> float -> Compositor.Promise)
         (png : string -> DataURL) (st : State),
    (forall img, In img (images st) -> ImageData.croppedImage img <> Some ""%string) ->
    (forall img c, In img (images st) -> ImageData.croppedImage img = Some c ->
                   compose c (template st) (aspectRatio st) = Compositor.Resolved (png c)) ->
    (exists cs : list string,
        map ImageData.croppedImage (committed st) = map Some cs /\
        handleDownloadAll compose st =
        match cs with
        | [] => ([], Returned)
        | _ => ((SetIsProcessing true ::
                 flat_map (round png (template st) (aspectRatio st))
                          (combine (seq 1 (List.length cs)) cs)
                 ++ [SetIsProcessing false])%list, Returned)
        end /\
        downloads (handleDownloadAll compose st) =
        map (fun n => ("poster-" ++ showNat n ++ ".png")%string) (seq 1 (List.length cs))) /\
    (forall imageId img c,
        find (fun i => String.eqb (ImageData.id i) imageId) (images st) = Some img ->
        ImageData.croppedImage img = Some c ->
        handleDownloadSingle compose imageId st =
        ([CreateHighQualityPoster c (template st) (aspectRatio st);
          Click ("poster-" ++ ImageData.id img ++ ".png")%string (png c)], Returned)).
Proof.
  intros compose png st Hne Hok. split.
  - pose proof (completedImages_nonnull st Hne) as Hcompl.
    destruct (cropped_list (committed st)) as [cs Hcs].
    { intros img Hin. rewrite <- Hcompl in Hin.
      now apply completedImages_some in Hin. }
    assert (Hall : forall c, In c cs ->
                compose c (template st) (aspectRatio st) = Compositor.Resolved (png c)).
    { intros c Hc.
      assert (Hin : In (Some c) (map ImageData.croppedImage (committed st)))
        by (rewrite Hcs; now apply in_map).
      apply in_map_iff in Hin as (img & Himg & Hin).
      apply filter_In in Hin as [Hin _]. now apply (Hok img). }
    assert (Hlen : List.length (committed st) = List.length cs).
    { rewrite <- (length_map ImageData.croppedImage), Hcs. apply length_map. }
    assert (Htrace : handleDownloadAll compose st =
                     match cs with
                     | [] => ([], Returned)
                     | _ => ((SetIsProcessing true ::
                              flat_map (round png (template st) (aspectRatio st))
                                       (combine (seq 1 (List.length cs)) cs)
                              ++ [SetIsProcessing false])%list, Returned)
                     end).
    { unfold handleDownloadAll. rewrite Hcompl, Hlen.
      rewrite (exportFrom_success compose png _ _ _ cs 0%nat Hcs Hall).
      destruct cs; reflexivity. }
    exists cs. split; [exact Hcs|]. split; [exact Htrace|].
    rewrite Htrace. destruct cs as [|c cs]; [reflexivity|].
    change (downloads
              ((SetIsProcessing true
                  :: flat_map (round png (template st) (aspectRatio st))
                       (combine (seq 1 (List.length (c :: cs))) (c :: cs))
                  ++ [SetIsProcessing false])%list, Returned))
      with (downloads
              ((flat_map (round png (template st) (aspectRatio st))
                         (combine (seq 1 (List.length (c :: cs))) (c :: cs))
                ++ [SetIsProcessing false])%list, Returned)).
    rewrite downloads_rounds. cbn [downloads fst flat_map]. now rewrite app_nil_r.
  - intros imageId img c Hfind Hc.
    unfold handleDownloadSingle. rewrite Hfind.
    apply find_some in Hfind as [Hin Hid]. apply String.eqb_eq in Hid.
    rewrite Hc. rewrite truthy_nonempty by (intros ->; now apply (Hne img)).
    cbn [negb nonNull]. rewrite (Hok img c Hin Hc). now rewrite Hid.
Qed.

(** C8. A poster is composed only from the cropped image of an item:
    every source either export composes from is the non-null
    [croppedImage] of an element of [images] (for single export, of an
    element with the requested id); batch export visits only items whose
    [croppedImage] is not null; and single export does nothing when the
    requested item does not exist or its [croppedImage] is null. *)
Theorem poster_only_from_cropped :
  forall (compose : string -> string -> float -> Compositor.Promise) (st : State),
    (forall c, In c (composedFrom (handleDownloadAll compose st)) ->
               exists img, In img (images st) /\ ImageData.croppedImage img = Some c) /\
    (forall imageId c,
        In c (composedFrom (handleDownloadSingle compose imageId st)) ->
        exists img, In img (images st) /\ ImageData.id img = imageId /\
                    ImageData.croppedImage img = Some c) /\
    (forall img, In img (completedImages st) -> ImageData.croppedImage img <> None) /\
    (forall imageId,
        match find (fun i => String.eqb (ImageData.id i) imageId) (images st) with
        | None => True
        | Some img => ImageData.croppedImage img = None
        end ->
        handleDownloadSingle compose imageId st = ([], Returned)).
Proof.
  intros compose st. repeat split.
  - intros c Hin. unfold handleDownloadAll in Hin.
    destruct (Nat.eqb _ 0); [contradiction|].
    destruct (exportFrom compose (template st) (aspectRatio st) 0 (completedImages st))
      as [t k] eqn:Hrec.
    unfold composedFrom in Hin. cbn in Hin.
    destruct (exportFrom_sources compose (template st) (aspectRatio st)
                                 (completedImages st) 0 c) as (img & Himg & Hc).
    { rewrite Hrec. exact Hin. }
    apply completedImages_some in Himg as [Himg [c' Hc']].
    exists img. split; [exact Himg|]. rewrite Hc' in Hc |- *. cbn in Hc. now subst.
  - intros imageId c Hin. unfold handleDownloadSingle in Hin.
    destruct (find _ (images st)) as [img|] eqn:Hfind; [|contradiction].
    apply find_some in Hfind as [Himg Hid]. apply String.eqb_eq in Hid.
    destruct (truthy (ImageData.croppedImage img)) eqn:Ht; [|contradiction].
    apply truthy_some in Ht as [c' Hc'].
    exists img. split; [exact Himg|]. split; [exact Hid|].
    rewrite Hc' in Hin |- *. cbn [negb nonNull] in Hin.
    destruct (compose c' (template st) (aspectRatio st));
      cbn in Hin; destruct Hin as [<-|Hin]; try reflexivity; contradiction.
  - intros img Hin. apply completedImages_some in Hin as [_ [c Hc]].
    rewrite Hc. discriminate.
  - intros imageId Hnone. unfold handleDownloadSingle.
    destruct (find _ (images st)) as [img|]; [|reflexivity].
    rewrite Hnone. reflexivity.
Qed.

(** C7 at the sample data: three of the four items are cropped; their
    posters are downloaded as [poster-1.png] to [poster-3.png], and the
    single export of item [b] is downloaded as [poster-b.png]. *)
Lemma export_sequence_and_names_witness :
  downloads (handleDownloadAll (Compositor.settled Demo.decode true) Demo.session) =
  ["poster-1.png"; "poster-2.png"; "poster-3.png"]%string /\
  handleDownloadSingle (Compositor.settled Demo.decode true) "b" Demo.session =
  ([CreateHighQualityPoster "data:crop-b" App.template4 (4 / 3)%float;
    Click "poster-b.png" Demo.poster], Returned).
Proof.
  destruct (export_sequence_and_names (Compositor.settled Demo.decode true)
                                      (fun _ => Demo.poster) Demo.session)
    as [(cs & Hcs & _ & Hdl) Hsingle].
  - intros img Hin. cbn in Hin.
    destruct Hin as [<-|[<-|[<-|[<-|[]]]]]; discriminate.
  - intros img c Hin Hc. cbn in Hin.
    destruct Hin as [<-|[<-|[<-|[<-|[]]]]]; cbn in Hc;
      try discriminate; injection Hc as <-; reflexivity.
  - split.
    + cbn in Hcs.
      destruct cs as [|c1 [|c2 [|c3 [|c4 cs]]]]; try discriminate.
      exact Hdl.
    + apply (Hsingle "b"%string (Demo.item "b" "data:photo-b" (Some "data:crop-b"%string))
                     "data:crop-b"%string); reflexivity.
Defined.

(** C8 at the sample data: the single export of item [c], which has no
    cropped image, does nothing. *)
Lemma poster_only_from_cropped_witness :
  handleDownloadSingle (Compositor.settled Demo.decode true) "c" Demo.session =
  ([], Returned).
Proof.
  destruct (poster_only_from_cropped (Compositor.settled Demo.decode true) Demo.session)
    as (_ & _ & _ & Hnone).
  apply (Hnone "c"%string). reflexivity.
Defined.

End ExportClaims.


(* ------------------------------------------------------------------ *)
(** * The working set: main results *)

Section WorkingSetClaims.
Import Canvas2D App.

(** ** The active-item pointer under each operation *)






(** Deletion keeps the pointer on an item, except that it leaves the
    pointer at 0 when it empties the list. *)
Lemma removeImage_index imageId st :
  validIndex st ->
  validIndex (removeImage imageId st) \/
  (images (removeImage imageId st) = [] /\ currentImageIndex (removeImage imageId st) = 0).
Proof.
  intros Hv. unfold removeImage.
  set (filtered := filter _ (images st)).
  destruct (Z.of_nat (List.length filtered) <=? currentImageIndex st) eqn:Hle.
  - apply Z.leb_le in Hle.
    destruct filtered as [|img rest] eqn:Hf.
    + right. split; reflexivity.
    + left. right. cbn -[Z.of_nat Z.max List.length].
      cbn [List.length] in *. lia.
  - apply Z.leb_gt in Hle. left.
    destruct Hv as [Hv|Hv]; [left; exact Hv|].
    right. cbn -[Z.of_nat]. fold filtered. lia.
Qed.

(** C9. After one image has been uploaded the pointer is 0 and designates
    it; removing that image empties the list and leaves the pointer at 0,
    which is neither -1 nor an index into the list, so that the derived
    current item is undefined although the pointer is not negative. *)
Theorem remove_last_image_index :
  let st1 := handleUpload (Some 1%nat)
                          [mkFileRead 0 1700000000000 (Some "data:photo"%string)]
                          initial in
  let st2 := removeImage "image-1700000000000-0" st1 in
  validIndex st1 /\
  map ImageData.id (images st1) = ["image-1700000000000-0"%string] /\
  images st2 = [] /\
  currentImageIndex st2 = 0 /\
  currentImage st2 = None /\
  ~ validIndex st2.
Proof.
  cbv zeta.
  split; [right; vm_compute; split; [discriminate | reflexivity]|].
  split; [reflexivity|].
  split; [reflexivity|].
  split; [reflexivity|].
  split; [reflexivity|].
  intros [H|[_ H]]; vm_compute in H; discriminate.
Qed.

(** C10. Setting [currentImageIndex] changes that field alone: the list
    of images, hence every field of every item, and the session-wide crop
    position, zoom and crop rectangle stay as they were; a commit on the
    item selected this way passes the rectangle reported before the switch
    to [getCroppedImg] and stores it, with the cropped image, in that item,
    leaving every other item alone. *)
Theorem selection_keeps_crop_state :
  forall (getCroppedImg : option string -> option CropImage.PixelCrop -> option string)
         (st : State) (index : nat) (img : ImageData.t),
    nth_error (images st) index = Some img ->
    let st' := setCurrentImageIndex (Z.of_nat index) st in
    clickImage index st = st' /\
    images st' = images st /\
    crop st' = crop st /\
    zoom st' = zoom st /\
    croppedAreaPixels st' = croppedAreaPixels st /\
    aspectRatio st' = aspectRatio st /\
    template st' = template st /\
    isProcessing st' = isProcessing st /\
    currentImageIndex st' = Z.of_nat index /\
    forall croppedImg,
      getCroppedImg (Some (ImageData.src img)) (croppedAreaPixels st) = Some croppedImg ->
      let st'' := handleCrop getCroppedImg st' st' in
      nth_error (images st'') index =
      Some (ImageData.mk (ImageData.id img) (ImageData.src img) (Some croppedImg)
                         (ImageData.crop img) (ImageData.zoom img)
                         (croppedAreaPixels st)) /\
      (forall j, j <> index -> nth_error (images st'') j = nth_error (images st) j) /\
      currentImageIndex st'' = Z.of_nat index /\
      croppedAreaPixels st'' = croppedAreaPixels st.
Proof.
  intros getCroppedImg st index img Hnth st'. subst st'.
  split.
  { unfold clickImage.
    replace (Nat.ltb index (List.length (images st))) with true; [reflexivity|].
    symmetry. apply Nat.ltb_lt. apply nth_error_Some. congruence. }
  do 8 (split; [reflexivity|]).
  intros croppedImg Hcrop st''. subst st''.
  unfold handleCrop. cbn [currentImageIndex images croppedAreaPixels setCurrentImageIndex].
  replace (Z.of_nat index =? -1) with false by (symmetry; apply Z.eqb_neq; lia).
  rewrite at_of_nat, Hnth, Hcrop.
  cbn [images currentImageIndex croppedAreaPixels setImages setCurrentImageIndex].
  split.
  { rewrite mapi_nth_error, Hnth. cbn [option_map].
    replace (0 + Z.of_nat index =? Z.of_nat index) with true
      by (symmetry; apply Z.eqb_eq; lia).
    reflexivity. }
  split; [|split; reflexivity].
  intros j Hj. rewrite mapi_nth_error.
  destruct (nth_error (images st) j) as [a|]; [|reflexivity].
  cbn [option_map].
  replace (0 + Z.of_nat j =? Z.of_nat index) with false
    by (symmetry; apply Z.eqb_neq; lia).
  reflexivity.
Qed.

(** C10 at the sample data: the rectangle was reported while item [a] was
    active; after the switch to item [c] the commit crops the source of
    [c] with that rectangle and records it in [c]. *)
Lemma selection_keeps_crop_state_witness :
  nth_error
    (images (handleCrop Demo.cropper
                        (setCurrentImageIndex 2 Demo.session)
                        (setCurrentImageIndex 2 Demo.session))) 2 =
  Some (ImageData.mk "c" "data:photo-c" (Some "data:cropped"%string)
                     (ImageData.mkPoint 0 0) 1%float
                     (Some (CropImage.mkPixelCrop 100 50 400 450))).
Proof.
  destruct (selection_keeps_crop_state Demo.cropper Demo.session 2
              (Demo.item "c" "data:photo-c" None) eq_refl)
    as (_ & _ & _ & _ & _ & _ & _ & _ & _ & Hcommit).
  destruct (Hcommit "data:cropped"%string eq_refl) as (Hitem & _).
  exact Hitem.
Defined.

End WorkingSetClaims.


(* ------------------------------------------------------------------ *)
(** * The poster compositor: further properties *)

Section CompositorMore.
Import Canvas2D Compositor.

Variable decode : string -> option Bitmap.

Ltac run_all :=
  cbv;
  repeat match goal with
         | H : decode _ = _ |- _ => rewrite !H; cbv
         end.

Ltac orders Hnd cs ts :=
  let Hc := fresh "Hc" in
  let Ht := fresh "Ht" in
  destruct (decode cs) eqn:Hc;
  destruct (decode ts) eqn:Ht;
  destruct (nodup_orders _ Hnd) as [->|[->|[->|[->| ->]]]].

Lemma loaded_fields w b e :
  promise (loaded w b e) = promise e /\
  imagesLoaded (loaded w b e) = imagesLoaded e /\
  ctx (loaded w b e) = ctx e /\
  src (croppedImage (loaded w b e)) = src (croppedImage e) /\
  src (templateImage (loaded w b e)) = src (templateImage e).
Proof. destruct w; repeat split. Qed.

Lemma onImageLoad_fields e :
  imagesLoaded (onImageLoad e) = imagesLoaded e + 1 /\
  croppedImage (onImageLoad e) = croppedImage e /\
  templateImage (onImageLoad e) = templateImage e /\
  (promise e <> Pending -> promise (onImageLoad e) = promise e).
Proof.
  unfold onImageLoad. cbn.
  destruct (imagesLoaded e + 1 =? totalImages); [|repeat split].
  destruct (ctx e); cbn; repeat split; destruct (promise e) eqn:E; intros; cbn; congruence.
Qed.

Lemma settle_keeps_settled e w :
  promise e <> Pending -> promise (settle decode e w) = promise e.
Proof.
  intros Hp. unfold settle. destruct (decode _) as [b|].
  - destruct (onImageLoad_fields (loaded w b e)) as (_ & _ & _ & Hk).
    destruct (loaded_fields w b e) as (Hl & _).
    rewrite Hk; congruence.
  - cbn. destruct (promise e) eqn:E; cbn; congruence.
Qed.

Lemma run_keeps_settled more : forall e,
  promise e <> Pending -> promise (run decode more e) = promise e.
Proof.
  induction more as [|w more IH]; intros e Hp; [reflexivity|].
  change (run decode (w :: more) e) with (run decode more (settle decode e w)).
  rewrite IH; rewrite settle_keeps_settled; auto.
Qed.

(** X1. Once the promise of a call is resolved or rejected, nothing that
    happens to the two image elements afterwards changes it. *)
Theorem promise_settles_once :
  forall (ctxAvailable : bool) (croppedImageSrc templateSrc : string)
         (aspectRatio : float) (order more : list Which),
    promise (createHighQualityPoster decode ctxAvailable croppedImageSrc templateSrc
                                     aspectRatio order) <> Pending ->
    promise (createHighQualityPoster decode ctxAvailable croppedImageSrc templateSrc
                                     aspectRatio (order ++ more)) =
    promise (createHighQualityPoster decode ctxAvailable croppedImageSrc templateSrc
                                     aspectRatio order).
Proof.
  intros ctxAvailable cs ts a order more Hp.
  unfold createHighQualityPoster, run in *. rewrite fold_left_app.
  now apply run_keeps_settled.
Qed.

Lemma settle_counts cs ts e w :
  src (croppedImage e) = cs -> src (templateImage e) = ts ->
  imagesLoaded (settle decode e w) =
  imagesLoaded e + (if decodes decode cs ts w then 1 else 0) /\
  src (croppedImage (settle decode e w)) = cs /\
  src (templateImage (settle decode e w)) = ts.
Proof.
  intros Hc Ht. unfold settle, decodes.
  replace (src (element w e)) with (sourceOf cs ts w) by (destruct w; cbn; congruence).
  destruct (decode (sourceOf cs ts w)) as [b|].
  - destruct (onImageLoad_fields (loaded w b e)) as (Hn & Hce & Hte & _).
    destruct (loaded_fields w b e) as (_ & Hl & _ & Hsc & Hst).
    rewrite Hn, Hce, Hte, Hl, Hsc, Hst. auto.
  - cbn. rewrite Z.add_0_r. auto.
Qed.

Lemma run_counts cs ts order : forall e,
  src (croppedImage e) = cs -> src (templateImage e) = ts ->
  imagesLoaded (run decode order e) =
  imagesLoaded e + Z.of_nat (List.length (filter (decodes decode cs ts) order)).
Proof.
  induction order as [|w order IH]; intros e Hc Ht.
  - cbn. lia.
  - change (run decode (w :: order) e) with (run decode order (settle decode e w)).
    destruct (settle_counts cs ts e w Hc Ht) as (Hn & Hc' & Ht').
    rewrite (IH _ Hc' Ht'), Hn. cbn [filter].
    destruct (decodes decode cs ts w); cbn [List.length]; lia.
Qed.

(** X2. The counter [imagesLoaded] is the number of elements that have
    fired [load]: an element whose source fails to decode is not counted. *)
Theorem imagesLoaded_counts_loads :
  forall (ctxAvailable : bool) (croppedImageSrc templateSrc : string)
         (aspectRatio : float) (order : list Which),
    imagesLoaded (createHighQualityPoster decode ctxAvailable croppedImageSrc templateSrc
                                          aspectRatio order) =
    Z.of_nat (List.length (filter (decodes decode croppedImageSrc templateSrc) order)).
Proof.
  intros ctxAvailable cs ts a order. unfold createHighQualityPoster.
  rewrite (run_counts cs ts).
  - rewrite start_fresh. destruct (PrimFloat.eqb _ _); reflexivity.
  - rewrite start_fresh. destruct (PrimFloat.eqb _ _); reflexivity.
  - rewrite start_fresh. destruct (PrimFloat.eqb _ _); reflexivity.
Qed.

(** X3. When the canvas gives no 2D context, a call whose two images both
    load is rejected with "Canvas context not available" and draws
    nothing. *)
Theorem context_unavailable_rejects :
  forall (croppedImageSrc templateSrc : string) (aspectRatio : float)
         (order : list Which),
    NoDup order -> In CroppedEl order -> In TemplateEl order ->
    decode croppedImageSrc <> None -> decode templateSrc <> None ->
    let e := createHighQualityPoster decode false croppedImageSrc templateSrc
                                     aspectRatio order in
    promise e = Rejected CanvasContextNotAvailable /\ ops (posterCanvas e) = [].
Proof.
  intros cs ts a order Hnd HinC HinT Hdc Hdt e. subst e.
  unfold createHighQualityPoster. rewrite start_fresh.
  destruct (PrimFloat.eqb _ _); orders Hnd cs ts;
    try contradiction; try (cbn in HinC, HinT; intuition discriminate);
    run_all; auto.
Qed.

(** X4. The promise is pending exactly as long as no settled element has
    failed and the two elements have not both settled: a decode that never
    finishes leaves the call pending for ever. *)
Theorem pending_until_join_or_error :
  forall (ctxAvailable : bool) (croppedImageSrc templateSrc : string)
         (aspectRatio : float) (order : list Which),
    NoDup order ->
    (promise (createHighQualityPoster decode ctxAvailable croppedImageSrc templateSrc
                                      aspectRatio order) = Pending <->
     (forall w, In w order -> decodes decode croppedImageSrc templateSrc w = true) /\
     ~ (In CroppedEl order /\ In TemplateEl order)).
Proof.
  intros ctxAvailable cs ts a order Hnd.
  unfold createHighQualityPoster. rewrite start_fresh. unfold decodes.
  destruct (PrimFloat.eqb _ _); destruct ctxAvailable; orders Hnd cs ts;
    (split;
     [ run_all; intros Hp; try discriminate;
       (split; [intros [|] Hin; cbn in Hin |- *; rewrite ?Hc, ?Ht; intuition discriminate
               | cbn; intuition discriminate])
     | intros [Hall Hnot];
       try (exfalso; apply Hnot; cbn; solve [auto]);
       try (specialize (Hall CroppedEl); cbn in Hall; rewrite ?Hc in Hall;
            solve [discriminate Hall; auto | exfalso; intuition discriminate]);
       try (specialize (Hall TemplateEl); cbn in Hall; rewrite ?Ht in Hall;
            solve [discriminate Hall; auto | exfalso; intuition discriminate]);
       run_all; reflexivity ]).
Qed.

(** X5. When both sources fail to decode, the promise is rejected with the
    error event of the element that settled first; the later failure is
    ignored. *)
Theorem first_failure_wins :
  forall (ctxAvailable : bool) (croppedImageSrc templateSrc : string)
         (aspectRatio : float),
    decode croppedImageSrc = None -> decode templateSrc = None ->
    promise (createHighQualityPoster decode ctxAvailable croppedImageSrc templateSrc
                                     aspectRatio [CroppedEl; TemplateEl]) =
    Rejected (ImageError CroppedEl) /\
    promise (createHighQualityPoster decode ctxAvailable croppedImageSrc templateSrc
                                     aspectRatio [TemplateEl; CroppedEl]) =
    Rejected (ImageError TemplateEl).
Proof.
  intros ctxAvailable cs ts a Hc Ht.
  unfold createHighQualityPoster. rewrite start_fresh.
  destruct (PrimFloat.eqb _ _); run_all; auto.
Qed.

(** A transparent source pixel leaves an opaque pixel beneath it as it is. *)
Lemma sourceOver_transparent (s d : RGBA) :
  alpha s = 0 -> opaque d = true -> sourceOver s d = d.
Proof.
  unfold opaque. intros Hs Hd. apply Z.eqb_eq in Hd.
  destruct s as [sr sg sb sa], d as [dr dg db da]. cbn in Hs, Hd. subst sa da.
  unfold sourceOver. cbn -[Z.mul Z.div Z.add Z.eqb].
  replace (255 * (255 - 0) / 255) with 255 by reflexivity.
  rewrite !Z.mul_0_r, !Z.add_0_l. cbn -[Z.mul Z.div].
  rewrite !Z.div_mul by discriminate. reflexivity.
Qed.

Lemma render_see_through (f : Resampler) (lower upper : Bitmap) (W H x y : Z) :
  0 <= x < W -> 0 <= y < H ->
  alpha (f upper W H x y) = 0 ->
  opaque (f lower W H x y) = true ->
  render f (mkCanvas W H [DrawImage lower 0 0 W H; DrawImage upper 0 0 W H]) x y =
  f lower W H x y.
Proof.
  intros Hx Hy Hup Hlow. unfold render. cbn -[Z.leb Z.ltb Z.sub Z.add].
  rewrite !Z.add_0_l, !Z.sub_0_r.
  replace (0 <=? x) with true by (symmetry; apply Z.leb_le; lia).
  replace (x <? W) with true by (symmetry; apply Z.ltb_lt; lia).
  replace (0 <=? y) with true by (symmetry; apply Z.leb_le; lia).
  replace (y <? H) with true by (symmetry; apply Z.ltb_lt; lia).
  cbn. rewrite (sourceOver_opaque _ transparent Hlow).
  now apply sourceOver_transparent.
Qed.

(** X6. At every pixel of a poster where the stretched template is fully
    transparent and the stretched cropped image is fully opaque, the
    poster shows the cropped image. *)
Theorem transparent_template_shows_cropped :
  forall (ctxAvailable : bool) (croppedImageSrc templateSrc : string)
         (aspectRatio : float) (order : list Which) (d : DataURL)
         (cropped template : Bitmap),
    NoDup order ->
    promise (createHighQualityPoster decode ctxAvailable croppedImageSrc templateSrc
                                     aspectRatio order) = Resolved d ->
    decode croppedImageSrc = Some cropped ->
    decode templateSrc = Some template ->
    forall (f : Resampler) (x y : Z),
      0 <= x < width (surface d) -> 0 <= y < height (surface d) ->
      alpha (f template (width (surface d)) (height (surface d)) x y) = 0 ->
      opaque (f cropped (width (surface d)) (height (surface d)) x y) = true ->
      render f (surface d) x y =
      f cropped (width (surface d)) (height (surface d)) x y.
Proof.
  intros ctxAvailable cs ts a order d cropped template Hnd.
  unfold createHighQualityPoster. rewrite start_fresh.
  destruct (PrimFloat.eqb _ _); intros Hp Hc Ht;
    destruct (resolved_shape _ _ _ _ _ _ _ _ Hnd Hp) as (bc & bt & Hc' & Ht' & ->);
    rewrite Hc in Hc'; rewrite Ht in Ht';
    injection Hc' as <-; injection Ht' as <-;
    cbn -[render]; intros f x y Hx Hy Hup Hlow; now apply render_see_through.
Qed.

End CompositorMore.

Section CompositorMoreWitnesses.
Import Canvas2D Compositor.

Ltac nodup := repeat constructor; cbn; intuition discriminate.

(** X1 at the sample data: a second [load] of the cropped image after the
    poster exists does not change the promise. *)
Lemma promise_settles_once_witness :
  promise (createHighQualityPoster Demo.decode true "data:photo" App.template4
             (App.ratioOf App.Landscape) ([CroppedEl; TemplateEl] ++ [CroppedEl])) =
  Resolved Demo.poster.
Proof.
  rewrite (promise_settles_once Demo.decode true "data:photo" App.template4
             (App.ratioOf App.Landscape) [CroppedEl; TemplateEl] [CroppedEl]).
  - reflexivity.
  - cbv. discriminate.
Defined.

(** X3 at the sample data. *)
Lemma context_unavailable_rejects_witness :
  promise (createHighQualityPoster Demo.decode false "data:photo" App.template4
             (App.ratioOf App.Landscape) [TemplateEl; CroppedEl]) =
  Rejected CanvasContextNotAvailable.
Proof.
  apply (context_unavailable_rejects Demo.decode "data:photo" App.template4
           (App.ratioOf App.Landscape) [TemplateEl; CroppedEl]).
  - nodup.
  - cbn; auto.
  - cbn; auto.
  - discriminate.
  - discriminate.
Defined.

(** X4 at the sample data: the photograph has loaded, the template has not
    settled, and the promise is pending. *)
Lemma pending_until_join_or_error_witness :
  promise (createHighQualityPoster Demo.decode true "data:photo" App.template4
             (App.ratioOf App.Landscape) [CroppedEl]) = Pending.
Proof.
  apply (pending_until_join_or_error Demo.decode true "data:photo" App.template4
           (App.ratioOf App.Landscape) [CroppedEl]).
  - nodup.
  - split.
    + intros w [<-|[]]. reflexivity.
    + cbn. intuition discriminate.
Defined.

(** X5 at the sample data. *)
Lemma first_failure_wins_witness :
  promise (createHighQualityPoster Demo.decode true "broken" "missing"
             (App.ratioOf App.Portrait) [TemplateEl; CroppedEl]) =
  Rejected (ImageError TemplateEl).
Proof.
  apply (first_failure_wins Demo.decode true "broken" "missing"
                            (App.ratioOf App.Portrait)); reflexivity.
Defined.

(** X6 at the sample data: right of the red band the frame is transparent
    and the Landscape poster shows the photograph. *)
Lemma transparent_template_shows_cropped_witness :
  render nearest (surface Demo.poster) 800 600 = nearest Demo.photo 1600 1200 800 600.
Proof.
  apply (transparent_template_shows_cropped Demo.decode true "data:photo" App.template4
           (App.ratioOf App.Landscape) [CroppedEl; TemplateEl] Demo.poster
           Demo.photo Demo.frame).
  - nodup.
  - reflexivity.
  - reflexivity.
  - reflexivity.
  - cbn; lia.
  - cbn; lia.
  - reflexivity.
  - reflexivity.
Defined.

End CompositorMoreWitnesses.

(* ------------------------------------------------------------------ *)
(** * Upload and camera capture: further properties *)

Section UploadMore.
Import Canvas2D App.

(** The state an upload leaves when its last reader fires. *)
Let finished (newImages : list ImageData.t) (st : State) : State :=
  setIsProcessing false
    (setCurrentImageIndex 0 (setImages (fun prev => (prev ++ newImages)%list) st)).

Lemma upload_all_strings (nfiles : nat) (reads : list FileRead) :
  forall (newImages : list ImageData.t) (st : State),
    Forall (fun r => result r <> None) reads ->
    (List.length newImages + List.length reads)%nat = nfiles ->
    fold_left (onUploadRead nfiles) reads (newImages, st) =
    ((newImages ++ uploadedItems reads)%list,
     match reads with
     | [] => st
     | _ => finished (newImages ++ uploadedItems reads)%list st
     end).
Proof.
  induction reads as [|r reads IH]; intros newImages st Hall Hlen.
  - cbn. now rewrite app_nil_r.
  - inversion Hall as [|? ? Hr Hall']; subst.
    destruct (result r) as [dataUrl|] eqn:Hres; [|contradiction].
    cbn [fold_left]. unfold onUploadRead at 2. rewrite Hres.
    cbn [uploadedItems flat_map]. rewrite Hres.
    fold (uploadedItems reads).
    destruct reads as [|r' reads'].
    + cbn [fold_left]. rewrite length_app. cbn [List.length] in *.
      replace (Nat.eqb _ _) with true by (symmetry; apply Nat.eqb_eq; lia).
      cbn [uploadedItems flat_map]. rewrite app_nil_r.
      replace (0 <? Z.of_nat (List.length newImages + 1)) with true
        by (symmetry; apply Z.ltb_lt; lia).
      reflexivity.
    + replace (Nat.eqb _ _) with false.
      2:{ symmetry. apply Nat.eqb_neq. rewrite length_app. cbn [List.length] in *. lia. }
      rewrite IH; [| exact Hall' | rewrite length_app; cbn [List.length] in *; lia].
      rewrite <- !app_assoc. reflexivity.
Qed.

(** X7. When every chosen file is read as a string, an upload of at least
    one file appends one item per file, in the order in which the readers
    fired, makes the first item of the whole list the active one, and
    switches the processing indicator off; nothing else changes. *)
Theorem handleUpload_complete :
  forall (reads : list FileRead) (st : State),
    reads <> [] ->
    Forall (fun r => result r <> None) reads ->
    handleUpload (Some (List.length reads)) reads st =
    mkState (images st ++ uploadedItems reads)%list 0 (crop st) (zoom st)
            (croppedAreaPixels st) (aspectRatio st) (template st) false.
Proof.
  intros reads st Hne Hall. unfold handleUpload.
  rewrite (upload_all_strings (List.length reads) reads [] _ Hall eq_refl).
  destruct reads; [contradiction|]. reflexivity.
Qed.

Lemma upload_short (nfiles : nat) (reads : list FileRead) :
  forall (newImages : list ImageData.t) (st : State),
    (List.length newImages + stringResults reads < nfiles)%nat ->
    snd (fold_left (onUploadRead nfiles) reads (newImages, st)) = st.
Proof.
  induction reads as [|r reads IH]; intros newImages st Hlt; [reflexivity|].
  cbn [fold_left]. unfold onUploadRead at 2. unfold stringResults in *.
  cbn [filter] in Hlt.
  destruct (result r) as [dataUrl|].
  - cbn [List.length] in Hlt.
    replace (Nat.eqb _ _) with false
      by (symmetry; apply Nat.eqb_neq; rewrite length_app; cbn; lia).
    apply IH. rewrite length_app. cbn. lia.
  - apply IH. exact Hlt.
Qed.

Lemma upload_none_chosen (reads : list FileRead) :
  forall (newImages : list ImageData.t) (st : State),
    snd (fold_left (onUploadRead 0) reads (newImages, st)) = st.
Proof.
  induction reads as [|r reads IH]; intros newImages st; [reflexivity|].
  cbn [fold_left]. unfold onUploadRead at 2.
  destruct (result r) as [dataUrl|]; [|apply IH].
  replace (Nat.eqb _ 0) with false
    by (symmetry; apply Nat.eqb_neq; rewrite length_app; cbn; lia).
  apply IH.
Qed.

(** X8. When fewer readers deliver a string than files were chosen (a
    file failed to read, or the list of files was empty), the upload adds
    no item at all and leaves the processing indicator on. *)
Theorem handleUpload_incomplete :
  forall (nfiles : nat) (reads : list FileRead) (st : State),
    (stringResults reads < nfiles)%nat \/ nfiles = 0%nat ->
    handleUpload (Some nfiles) reads st = setIsProcessing true st.
Proof.
  intros nfiles reads st [Hlt | ->]; unfold handleUpload.
  - apply upload_short. exact Hlt.
  - apply upload_none_chosen.
Qed.

Lemma at_last (l : list ImageData.t) (x : ImageData.t) :
  at_ (l ++ [x]) (Z.of_nat (List.length l)) = Some x.
Proof.
  rewrite at_of_nat, nth_error_app2 by lia.
  now rewrite Nat.sub_diag.
Qed.

(** X9. A camera capture appends one item without a cropped image.  If the
    list is as long as it was when the handler was created, that item
    becomes the active one and the cropper is shown for it; if an item was
    removed in between, the pointer lies beyond the list and no item is
    active. *)
Theorem handleCameraCapture_activates :
  forall (rendered st : State) (now : Z) (dataUrl : string),
    let st' := handleCameraCapture rendered (Some (now, Some dataUrl)) st in
    images st' = (images st ++ [captured now dataUrl])%list /\
    currentImageIndex st' = Z.of_nat (List.length (images rendered)) /\
    (List.length (images rendered) = List.length (images st) ->
     currentImage st' = Some (captured now dataUrl) /\ cropSectionVisible st' = true) /\
    ((List.length (images st) < List.length (images rendered))%nat ->
     currentImage st' = None).
Proof.
  intros rendered st now dataUrl st'. subst st'.
  split; [reflexivity|]. split; [reflexivity|]. split.
  - intros Hlen.
    assert (Hcur : currentImage (handleCameraCapture rendered (Some (now, Some dataUrl)) st)
                   = Some (captured now dataUrl)).
    { unfold currentImage.
      cbn [handleCameraCapture currentImageIndex images setCurrentImageIndex setImages].
      replace (0 <=? Z.of_nat (List.length (images rendered))) with true
        by (symmetry; apply Z.leb_le; lia).
      rewrite Hlen. apply at_last. }
    split; [exact Hcur|]. unfold cropSectionVisible. rewrite Hcur. reflexivity.
  - intros Hlt. unfold currentImage.
    cbn [handleCameraCapture currentImageIndex images setCurrentImageIndex setImages].
    replace (0 <=? Z.of_nat (List.length (images rendered))) with true
      by (symmetry; apply Z.leb_le; lia).
    rewrite at_of_nat. apply nth_error_None. rewrite length_app. cbn. lia.
Qed.

End UploadMore.

(* ------------------------------------------------------------------ *)
(** * Commit and removal: further properties *)

Section CommitMore.
Import Canvas2D App.

Variable getCroppedImg : option string -> option CropImage.PixelCrop -> option string.

(** The function [handleCrop] maps over the list. *)
Let write (index : Z) (croppedImg : string) (area : option CropImage.PixelCrop)
    (img : ImageData.t) (i : Z) : ImageData.t :=
  if i =? index then cropped img croppedImg area else img.

Lemma handleCrop_cases (rendered st : State) :
  handleCrop getCroppedImg rendered st = st \/
  exists (i : nat) (cur : ImageData.t) (croppedImg : string),
    currentImageIndex rendered = Z.of_nat i /\
    nth_error (images rendered) i = Some cur /\
    getCroppedImg (Some (ImageData.src cur)) (croppedAreaPixels rendered) = Some croppedImg /\
    handleCrop getCroppedImg rendered st =
    setImages (mapi (write (Z.of_nat i) croppedImg (croppedAreaPixels rendered)) 0) st.
Proof.
  unfold handleCrop.
  destruct (currentImageIndex rendered =? -1); [now left|].
  destruct (at_ (images rendered) (currentImageIndex rendered)) as [cur|] eqn:Hat; [|now left].
  destruct (getCroppedImg _ _) as [croppedImg|] eqn:Hg; [|now left].
  right. unfold at_ in Hat.
  destruct (currentImageIndex rendered <? 0) eqn:Hneg; [discriminate|].
  apply Z.ltb_ge in Hneg.
  exists (Z.to_nat (currentImageIndex rendered)), cur, croppedImg.
  rewrite Z2Nat.id by exact Hneg. repeat split; auto.
Qed.

(** X10. A commit changes nothing when no item is active, when the pointer
    lies outside the list, or when [getCroppedImg] rejects: the item stays
    without a cropped image and the commit can be tried again. *)
Theorem handleCrop_noop :
  forall (rendered st : State),
    currentImageIndex rendered = -1 \/
    at_ (images rendered) (currentImageIndex rendered) = None \/
    (exists cur, at_ (images rendered) (currentImageIndex rendered) = Some cur /\
                 getCroppedImg (Some (ImageData.src cur)) (croppedAreaPixels rendered) = None) ->
    handleCrop getCroppedImg rendered st = st.
Proof.
  intros rendered st H. unfold handleCrop.
  destruct (currentImageIndex rendered =? -1) eqn:He; [reflexivity|].
  destruct H as [H|[H|(cur & Hat & Hg)]].
  - apply Z.eqb_neq in He. contradiction.
  - now rewrite H.
  - now rewrite Hat, Hg.
Qed.

(** X11. A commit never adds, removes, reorders or renames items and never
    touches the pointer or the session-wide settings: it can only change
    the cropped image and the crop rectangle of the item at the position
    the pointer had, and an item that had a cropped image still has one. *)
Theorem handleCrop_frame :
  forall (rendered st : State),
    let st' := handleCrop getCroppedImg rendered st in
    map ImageData.id (images st') = map ImageData.id (images st) /\
    map ImageData.src (images st') = map ImageData.src (images st) /\
    currentImageIndex st' = currentImageIndex st /\
    crop st' = crop st /\ zoom st' = zoom st /\
    croppedAreaPixels st' = croppedAreaPixels st /\
    aspectRatio st' = aspectRatio st /\ template st' = template st /\
    isProcessing st' = isProcessing st /\
    (forall j, Z.of_nat j <> currentImageIndex rendered ->
               nth_error (images st') j = nth_error (images st) j) /\
    (forall j img, nth_error (images st) j = Some img ->
                   ImageData.croppedImage img <> None ->
                   exists img', nth_error (images st') j = Some img' /\
                                ImageData.croppedImage img' <> None).
Proof.
  intros rendered st st'. subst st'.
  destruct (handleCrop_cases rendered st) as [->|(i & cur & c & Hi & Hcur & Hg & ->)].
  - repeat split; eauto.
  - cbn [images currentImageIndex crop zoom croppedAreaPixels aspectRatio template
         isProcessing setImages].
    assert (Hmap : forall (A : Type) (f : ImageData.t -> A),
               (forall img ci a, f (cropped img ci a) = f img) ->
               forall l k, map f (mapi (write (Z.of_nat i) c (croppedAreaPixels rendered)) k l)
                           = map f l).
    { intros A f Hf l. induction l as [|a l IH]; intros k; [reflexivity|].
      cbn. rewrite IH. f_equal. unfold write. destruct (k =? Z.of_nat i); auto. }
    split; [apply Hmap; reflexivity|].
    split; [apply Hmap; reflexivity|].
    do 7 (split; [reflexivity|]).
    split.
    + intros j Hj. rewrite mapi_nth_error.
      destruct (nth_error (images st) j); [|reflexivity]. cbn [option_map].
      unfold write. replace (0 + Z.of_nat j =? Z.of_nat i) with false
        by (symmetry; apply Z.eqb_neq; lia).
      reflexivity.
    + intros j img Hj Hc. rewrite mapi_nth_error, Hj. cbn [option_map].
      eexists. split; [reflexivity|]. unfold write.
      destruct (0 + Z.of_nat j =? Z.of_nat i); [discriminate | exact Hc].
Qed.

Lemma handleCrop_commits (rendered st : State) (i : nat) (cur : ImageData.t)
      (croppedImg : string) :
  currentImageIndex rendered = Z.of_nat i ->
  nth_error (images rendered) i = Some cur ->
  getCroppedImg (Some (ImageData.src cur)) (croppedAreaPixels rendered) = Some croppedImg ->
  handleCrop getCroppedImg rendered st =
  setImages (mapi (write (Z.of_nat i) croppedImg (croppedAreaPixels rendered)) 0) st.
Proof.
  intros Hi Hcur Hg. unfold handleCrop. rewrite Hi.
  replace (Z.of_nat i =? -1) with false by (symmetry; apply Z.eqb_neq; lia).
  rewrite at_of_nat, Hcur, Hg. reflexivity.
Qed.

(** X12. A commit is applied by position: the cropped image is computed
    from the source of the item the pointer designated when the handler
    was created, and is stored in whatever item stands at that position
    when the promise settles, together with the crop rectangle. *)
Theorem handleCrop_by_position :
  forall (rendered st : State) (i : nat) (cur other : ImageData.t) (croppedImg : string),
    currentImageIndex rendered = Z.of_nat i ->
    nth_error (images rendered) i = Some cur ->
    getCroppedImg (Some (ImageData.src cur)) (croppedAreaPixels rendered) = Some croppedImg ->
    nth_error (images st) i = Some other ->
    nth_error (images (handleCrop getCroppedImg rendered st)) i =
    Some (cropped other croppedImg (croppedAreaPixels rendered)).
Proof.
  intros rendered st i cur other c Hi Hcur Hg Hother.
  rewrite (handleCrop_commits rendered st i cur c Hi Hcur Hg). cbn [images setImages].
  rewrite mapi_nth_error, Hother. cbn [option_map]. unfold write.
  replace (0 + Z.of_nat i =? Z.of_nat i) with true by (symmetry; apply Z.eqb_eq; lia).
  reflexivity.
Qed.

Lemma mapi_write_twice index c area (l : list ImageData.t) :
  forall k, mapi (write index c area) k (mapi (write index c area) k l) =
            mapi (write index c area) k l.
Proof.
  induction l as [|a l IH]; intros k; [reflexivity|].
  cbn. rewrite IH. f_equal. unfold write.
  destruct (k =? index); reflexivity.
Qed.

(** X13. Committing again without a new crop rectangle changes nothing:
    the second commit writes the same cropped image and rectangle. *)
Theorem handleCrop_idempotent :
  forall (st : State),
    let st' := handleCrop getCroppedImg st st in
    handleCrop getCroppedImg st' st' = st'.
Proof.
  intros st st'. subst st'.
  destruct (handleCrop_cases st st) as [Heq|(i & cur & c & Hi & Hcur & Hg & Heq)].
  - rewrite Heq. exact Heq.
  - rewrite Heq. unfold handleCrop.
    cbn [currentImageIndex images croppedAreaPixels setImages]. rewrite Hi.
    replace (Z.of_nat i =? -1) with false by (symmetry; apply Z.eqb_neq; lia).
    rewrite at_of_nat, mapi_nth_error, Hcur. cbn [option_map].
    unfold write at 1.
    replace (0 + Z.of_nat i =? Z.of_nat i) with true by (symmetry; apply Z.eqb_eq; lia).
    cbn [cropped ImageData.src]. rewrite Hg.
    unfold setImages. cbn [images currentImageIndex crop zoom croppedAreaPixels
                                  aspectRatio template isProcessing].
    f_equal. apply (mapi_write_twice (Z.of_nat i) c (croppedAreaPixels st)).
Qed.

(** X14. After a commit that succeeds with a non-empty cropped image on the
    active item, the cropper is no longer shown for that item, the poster
    previews are shown, and the item is among those a batch export
    visits. *)
Theorem commit_hides_cropper :
  forall (st : State) (i : nat) (cur : ImageData.t) (croppedImg : string),
    currentImageIndex st = Z.of_nat i ->
    nth_error (images st) i = Some cur ->
    getCroppedImg (Some (ImageData.src cur)) (croppedAreaPixels st) = Some croppedImg ->
    croppedImg <> ""%string ->
    let st' := handleCrop getCroppedImg st st in
    cropSectionVisible st' = false /\
    previewVisible st' = true /\
    In (cropped cur croppedImg (croppedAreaPixels st)) (completedImages st').
Proof.
  intros st i cur c Hi Hcur Hg Hne st'.
  assert (Heq : st' = setImages (mapi (write (Z.of_nat i) c (croppedAreaPixels st)) 0) st)
    by (apply handleCrop_commits with (cur := cur); assumption).
  assert (Hnew : nth_error (images st') i = Some (cropped cur c (croppedAreaPixels st))).
  { rewrite Heq. cbn [images setImages].
    rewrite mapi_nth_error, Hcur. cbn [option_map]. unfold write.
    replace (0 + Z.of_nat i =? Z.of_nat i) with true by (symmetry; apply Z.eqb_eq; lia).
    reflexivity. }
  assert (Hidx : currentImageIndex st' = Z.of_nat i) by (rewrite Heq; exact Hi).
  assert (Hin : In (cropped cur c (croppedAreaPixels st)) (images st'))
    by (eapply nth_error_In; exact Hnew).
  assert (Ht : truthy (ImageData.croppedImage (cropped cur c (croppedAreaPixels st))) = true)
    by (cbn [cropped ImageData.croppedImage]; now apply truthy_nonempty).
  split.
  - unfold cropSectionVisible, currentImage. rewrite Hidx.
    replace (0 <=? Z.of_nat i) with true by (symmetry; apply Z.leb_le; lia).
    rewrite at_of_nat, Hnew, Ht. reflexivity.
  - split.
    + unfold previewVisible. apply existsb_exists. eexists. split; [exact Hin | exact Ht].
    + unfold completedImages. apply filter_In. split; [exact Hin | exact Ht].
Qed.

End CommitMore.

(* ------------------------------------------------------------------ *)
(** * Removal: further properties *)

Section RemoveMore.
Import Canvas2D App.

Lemma filter_twice {A} (f : A -> bool) (l : list A) : filter f (filter f l) = filter f l.
Proof.
  induction l as [|a l IH]; [reflexivity|]. cbn.
  destruct (f a) eqn:Hf; [cbn; rewrite Hf, IH; reflexivity | exact IH].
Qed.

Lemma filter_all {A} (f : A -> bool) (l : list A) :
  (forall a, In a l -> f a = true) -> filter f l = l.
Proof.
  induction l as [|a l IH]; intros Hall; [reflexivity|]. cbn.
  rewrite (Hall a (or_introl eq_refl)), IH; [reflexivity|].
  intros b Hb. apply Hall. now right.
Qed.

Lemma removeImage_eq (imageId : string) (st : State) :
  removeImage imageId st =
  let filtered :=
    filter (fun img => negb (String.eqb (ImageData.id img) imageId)) (images st) in
  mkState filtered
          (if Z.of_nat (List.length filtered) <=? currentImageIndex st
           then Z.max 0 (Z.of_nat (List.length filtered) - 1)
           else currentImageIndex st)
          (crop st) (zoom st) (croppedAreaPixels st) (aspectRatio st) (template st)
          (isProcessing st).
Proof. unfold removeImage. cbv zeta. destruct (_ <=? _); reflexivity. Qed.

(** X15. Removing the same id twice is the same as removing it once. *)
Theorem removeImage_idempotent :
  forall (imageId : string) (st : State),
    removeImage imageId (removeImage imageId st) = removeImage imageId st.
Proof.
  intros imageId st.
  rewrite (removeImage_eq imageId (removeImage imageId st)).
  rewrite (removeImage_eq imageId st). cbv zeta.
  cbn [images currentImageIndex crop zoom croppedAreaPixels aspectRatio template
       isProcessing].
  rewrite filter_twice.
  set (filtered := filter _ (images st)).
  f_equal.
  destruct (Z.of_nat (List.length filtered) <=? currentImageIndex st) eqn:Hle.
  - destruct (_ <=? Z.max _ _) eqn:Hle2; reflexivity.
  - rewrite Hle. reflexivity.
Qed.

(** X16. Removing an id that no item carries changes nothing, provided the
    pointer is below the length of the list. *)
Theorem removeImage_unknown_id :
  forall (imageId : string) (st : State),
    (forall img, In img (images st) -> ImageData.id img <> imageId) ->
    currentImageIndex st < Z.of_nat (List.length (images st)) ->
    removeImage imageId st = st.
Proof.
  intros imageId st Hno Hlt. unfold removeImage.
  rewrite filter_all.
  - replace (_ <=? _) with false by (symmetry; apply Z.leb_gt; exact Hlt).
    destruct st; reflexivity.
  - intros img Hin. apply negb_true_iff. apply String.eqb_neq. now apply Hno.
Qed.

(** X17. Removal does not follow the active item: the pointer keeps its
    value, clamped to the last position of the shortened list.  So when the
    removed item is the active one or stands before it, and the active one
    is not the last, the item after the active one becomes active. *)
Theorem removeImage_shifts_active :
  forall (imageId : string) (st : State) (l1 l2 : list ImageData.t)
         (x : ImageData.t) (i : nat),
    images st = (l1 ++ x :: l2)%list ->
    ImageData.id x = imageId ->
    (forall img, In img (l1 ++ l2)%list -> ImageData.id img <> imageId) ->
    currentImageIndex st = Z.of_nat i ->
    let st' := removeImage imageId st in
    images st' = (l1 ++ l2)%list /\
    currentImage st' =
    nth_error (l1 ++ l2)%list (Nat.min i (List.length (l1 ++ l2)%list - 1)) /\
    ((List.length l1 <= i < List.length (l1 ++ l2)%list)%nat ->
     currentImage st' = nth_error (images st) (S i)) /\
    ((i < List.length l1)%nat -> currentImage st' = currentImage st).
Proof.
  intros imageId st l1 l2 x i Himg Hx Hno Hi st'.
  set (keep := fun img => negb (String.eqb (ImageData.id img) imageId)).
  assert (Hf : filter keep (images st) = (l1 ++ l2)%list).
  { rewrite Himg, filter_app. cbn [filter]. unfold keep at 2.
    rewrite Hx, String.eqb_refl. cbn [negb].
    rewrite <- filter_app. apply filter_all.
    intros img Hin. apply negb_true_iff, String.eqb_neq. now apply Hno. }
  assert (Himg' : images st' = (l1 ++ l2)%list).
  { subst st'. unfold removeImage. fold keep. rewrite Hf.
    destruct (_ <=? _); reflexivity. }
  assert (Hidx : currentImageIndex st' =
                 Z.of_nat (Nat.min i (List.length (l1 ++ l2)%list - 1))).
  { subst st'. unfold removeImage. fold keep. rewrite Hf, Hi.
    destruct (_ <=? _) eqn:Hle; cbn [currentImageIndex setCurrentImageIndex setImages].
    - apply Z.leb_le in Hle. lia.
    - apply Z.leb_gt in Hle. lia. }
  assert (Hcur : currentImage st' =
                 nth_error (l1 ++ l2)%list (Nat.min i (List.length (l1 ++ l2)%list - 1))).
  { unfold currentImage. rewrite Hidx, Himg'.
    replace (0 <=? Z.of_nat _) with true by (symmetry; apply Z.leb_le; lia).
    apply at_of_nat. }
  split; [exact Himg'|]. split; [exact Hcur|]. split.
  - intros [Hge Hlt]. rewrite Hcur, Himg.
    replace (Nat.min i (List.length (l1 ++ l2)%list - 1)) with i by lia.
    rewrite nth_error_app2 by exact Hge.
    replace (l1 ++ x :: l2)%list with ((l1 ++ [x]) ++ l2)%list
      by (rewrite <- app_assoc; reflexivity).
    rewrite nth_error_app2 by (rewrite length_app; cbn; lia).
    f_equal. rewrite length_app. cbn [List.length]. lia.
  - intros Hlt. rewrite Hcur. unfold currentImage. rewrite Hi, Himg.
    replace (0 <=? Z.of_nat i) with true by (symmetry; apply Z.leb_le; lia).
    rewrite at_of_nat.
    replace (Nat.min i (List.length (l1 ++ l2)%list - 1)) with i
      by (rewrite length_app; lia).
    rewrite !nth_error_app1 by exact Hlt. reflexivity.
Qed.

End RemoveMore.

(* ------------------------------------------------------------------ *)
(** * The session: invariants *)

Section SessionInvariants.
Import Canvas2D App.

Variable getCroppedImg : option string -> option CropImage.PixelCrop -> option string.

(** ** What the fold of an upload keeps *)

(** A property of states that ignores the processing indicator and holds
    after the final update of an upload is kept by the whole upload. *)
Lemma handleUpload_keeps (P : State -> Prop) files reads st :
  (forall b s, P s -> P (setIsProcessing b s)) ->
  (forall s newImages, newImages <> [] -> Forall (fun i => In i (uploadedItems reads)) newImages ->
                       P s ->
                       P (setCurrentImageIndex 0 (setImages (fun prev => (prev ++ newImages)%list) s))) ->
  P st -> P (handleUpload files reads st).
Proof.
  intros Hproc Hfin Hst. destruct files as [nfiles|]; [|exact Hst]. cbn.
  assert (Hgen : forall done todo acc,
             reads = (done ++ todo)%list ->
             Forall (fun i => In i (uploadedItems done)) (fst acc) -> P (snd acc) ->
             P (snd (fold_left (onUploadRead nfiles) todo acc))).
  { intros done todo. revert done.
    induction todo as [|r todo IH]; intros done acc Hsplit Hnew Hacc; [exact Hacc|].
    cbn [fold_left].
    apply (IH (done ++ [r])%list).
    - rewrite <- app_assoc. exact Hsplit.
    - destruct acc as [newImages s]. unfold onUploadRead.
      assert (Hweak : Forall (fun i => In i (uploadedItems (done ++ [r])%list)) newImages).
      { eapply Forall_impl; [|exact Hnew]. intros a Ha.
        unfold uploadedItems. rewrite flat_map_app. apply in_or_app. now left. }
      destruct (result r) as [dataUrl|] eqn:Hres; [|exact Hweak].
      assert (Hall : Forall (fun i => In i (uploadedItems (done ++ [r])%list))
                            (newImages ++ [uploaded r dataUrl])%list).
      { apply Forall_app. split; [exact Hweak|]. constructor; [|constructor].
        unfold uploadedItems. rewrite flat_map_app. apply in_or_app. right.
        cbn. rewrite Hres. now left. }
      destruct (Nat.eqb _ nfiles); exact Hall.
    - destruct acc as [newImages s]. cbn [snd] in Hacc. unfold onUploadRead.
      destruct (result r) as [dataUrl|] eqn:Hres; [|exact Hacc].
      destruct (Nat.eqb _ nfiles); [|exact Hacc]. cbn [snd].
      replace (0 <? Z.of_nat (List.length (newImages ++ [uploaded r dataUrl])%list))
        with true by (symmetry; apply Z.ltb_lt; rewrite length_app; cbn; lia).
      apply Hproc. apply Hfin; [now destruct newImages | | exact Hacc].
      apply Forall_app. split.
      + eapply Forall_impl; [|exact Hnew]. intros a Ha. cbn [fst] in *.
        rewrite Hsplit. unfold uploadedItems. rewrite flat_map_app.
        apply in_or_app. now left.
      + constructor; [|constructor]. rewrite Hsplit.
        unfold uploadedItems. rewrite flat_map_app. apply in_or_app. right.
        cbn. rewrite Hres. now left. }
  apply (Hgen [] reads); [reflexivity | constructor | now apply Hproc].
Qed.

Lemma mapi_Forall {A} (P : A -> Prop) (f : A -> Z -> A) (l : list A) :
  (forall a i, P a -> P (f a i)) ->
  forall k, Forall P l -> Forall P (mapi f k l).
Proof.
  intros Hf. induction l as [|a l IH]; intros k Hall; [constructor|].
  inversion Hall; subst. cbn. constructor; auto.
Qed.

(** ** The pointer *)

Lemma pointerOK_same (st st' : State) :
  List.length (images st') = List.length (images st) ->
  currentImageIndex st' = currentImageIndex st ->
  pointerOK st -> pointerOK st'.
Proof.
  unfold pointerOK. intros Hlen Hidx [[Hnil Hi]|Hi].
  - left. rewrite Hnil in Hlen. destruct (images st'); [|discriminate].
    split; [reflexivity | congruence].
  - right. rewrite Hlen, Hidx. exact Hi.
Qed.

Lemma handle_pointer (ev : Event) (st : State) :
  pointerOK st -> pointerOK (handle getCroppedImg ev st).
Proof.
  intros Hp. destruct ev as [files reads|file|c|z|a p| |index|imageId|m]; cbn [handle];
    try (apply (pointerOK_same st); [reflexivity | reflexivity | exact Hp]).
  - apply handleUpload_keeps; [| |exact Hp].
    + intros b s Hs. exact Hs.
    + intros s newImages Hne _ _. right. cbn -[Z.of_nat]. rewrite length_app.
      destruct newImages; [contradiction|]. cbn [List.length]. lia.
  - destruct file as [[now [dataUrl|]]|]; try exact Hp.
    right. cbn -[Z.of_nat]. rewrite length_app. cbn [List.length]. lia.
  - destruct (handleCrop_cases getCroppedImg st st) as [->|(i & cur & c & _ & _ & _ & ->)];
      [exact Hp|].
    apply (pointerOK_same st); [|reflexivity|exact Hp].
    cbn [images setImages]. apply mapi_length.
  - unfold clickImage. destruct (Nat.ltb index _) eqn:Hlt; [|exact Hp].
    apply Nat.ltb_lt in Hlt. right. cbn -[Z.of_nat]. lia.
  - rewrite removeImage_eq. cbv zeta.
    set (filtered := filter _ (images st)).
    unfold pointerOK. cbn [images currentImageIndex].
    assert (Hshort : (List.length filtered <= List.length (images st))%nat)
      by apply filter_length_le.
    destruct (Z.of_nat (List.length filtered) <=? currentImageIndex st) eqn:Hle.
    + apply Z.leb_le in Hle. destruct filtered as [|img rest].
      * left. split; [reflexivity | right; reflexivity].
      * right. cbn [List.length] in *. lia.
    + apply Z.leb_gt in Hle. destruct Hp as [[Hnil Hi]|Hi].
      * left. rewrite Hnil in Hshort. destruct filtered; [|cbn in Hshort; lia].
        split; [reflexivity | exact Hi].
      * right. lia.
Qed.

(** X18. In every state a session can reach, the pointer designates an
    item whenever the list is not empty, and is -1 or 0 when it is empty;
    so the derived current item is an element of the list whenever there is
    one. *)
Theorem reachable_pointer :
  forall (st : State),
    reachable getCroppedImg st ->
    pointerOK st /\
    (images st <> [] -> exists img, currentImage st = Some img /\ In img (images st)).
Proof.
  intros st Hr.
  assert (Hp : pointerOK st).
  { induction Hr as [|ev st Hr IH]; [left; split; [reflexivity | left; reflexivity]|].
    now apply handle_pointer. }
  split; [exact Hp|]. intros Hne.
  destruct Hp as [[Hnil _]|Hi]; [contradiction|].
  unfold currentImage.
  replace (0 <=? currentImageIndex st) with true by (symmetry; apply Z.leb_le; lia).
  unfold at_.
  replace (currentImageIndex st <? 0) with false by (symmetry; apply Z.ltb_ge; lia).
  destruct (nth_error (images st) (Z.to_nat (currentImageIndex st))) as [img|] eqn:Hn.
  - exists img. split; [reflexivity|]. eapply nth_error_In. exact Hn.
  - apply nth_error_None in Hn. lia.
Qed.


(** ** Mode *)

Lemma handle_mode (ev : Event) (st : State) :
  (forall m, ev <> SelectMode m) ->
  aspectRatio (handle getCroppedImg ev st) = aspectRatio st /\
  template (handle getCroppedImg ev st) = template st.
Proof.
  intros Hns. destruct ev as [files reads|file|c|z|a p| |index|imageId|m]; cbn [handle];
    try (split; reflexivity).
  - apply (handleUpload_keeps
             (fun s => aspectRatio s = aspectRatio st /\ template s = template st));
      [intros b s Hs; exact Hs | intros s n _ _ Hs; exact Hs | split; reflexivity].
  - destruct file as [[now [dataUrl|]]|]; split; reflexivity.
  - destruct (handleCrop_cases getCroppedImg st st) as [->|(i & cur & c & _ & _ & _ & ->)];
      split; reflexivity.
  - unfold clickImage. destruct (Nat.ltb index _); split; reflexivity.
  - rewrite removeImage_eq. split; reflexivity.
  - exfalso. now apply (Hns m).
Qed.

(** X20. In every state a session can reach, the ratio and the template
    belong to the same mode: 4/3 with the landscape template or 3/4 with
    the portrait template. *)
Theorem reachable_mode_consistent :
  forall (st : State), reachable getCroppedImg st -> modeConsistent st.
Proof.
  intros st Hr. induction Hr as [|ev st Hr IH].
  - exists Landscape. split; reflexivity.
  - destruct ev as [files reads|file|c|z|a p| |index|imageId|m];
      try (destruct IH as (m0 & Ha & Ht); exists m0;
           match goal with
           | |- context [handle _ ?e _] =>
               destruct (handle_mode e st) as [Ha' Ht']; [intros m1; discriminate|]
           end;
           split; congruence).
    exists m. split; reflexivity.
Qed.

(** ** Items *)

Lemma uploadedItems_untouched (reads : list FileRead) (img : ImageData.t) :
  In img (uploadedItems reads) -> untouched img.
Proof.
  unfold uploadedItems. intros Hin. apply in_flat_map in Hin as (r & _ & Hin).
  destruct (result r); [|contradiction]. destruct Hin as [<-|[]].
  repeat split.
Qed.

Lemma handle_untouched (ev : Event) (st : State) :
  Forall untouched (images st) -> Forall untouched (images (handle getCroppedImg ev st)).
Proof.
  intros Hall. destruct ev as [files reads|file|c|z|a p| |index|imageId|m]; cbn [handle];
    try exact Hall.
  - apply (handleUpload_keeps (fun s => Forall untouched (images s)));
      [intros b s Hs; exact Hs | | exact Hall].
    intros s newImages _ Hnew Hs. cbn [images setImages setCurrentImageIndex].
    apply Forall_app. split; [exact Hs|].
    eapply Forall_impl; [|exact Hnew]. intros a. apply uploadedItems_untouched.
  - destruct file as [[now [dataUrl|]]|]; try exact Hall.
    cbn [handleCameraCapture images setImages setCurrentImageIndex].
    apply Forall_app. split; [exact Hall|]. constructor; [|constructor]. repeat split.
  - destruct (handleCrop_cases getCroppedImg st st) as [->|(i & cur & c & _ & _ & _ & ->)];
      [exact Hall|].
    cbn [images setImages]. apply mapi_Forall; [|exact Hall].
    intros a k (Hc & Hz & Hn). destruct (k =? Z.of_nat i); [|repeat split; assumption].
    repeat split; try assumption. discriminate.
  - unfold clickImage. destruct (Nat.ltb index _); exact Hall.
  - rewrite removeImage_eq. cbn [images]. apply Forall_forall.
    intros img Hin. apply filter_In in Hin as [Hin _].
    revert img Hin. now apply Forall_forall.
Qed.

(** X21. In every state a session can reach, every item still has the crop
    position (0, 0) and the zoom 1 it was created with, and an item
    without a cropped image has no crop rectangle: the cropper's position,
    zoom and rectangle live in the session, and only a commit copies the
    rectangle into an item. *)
Theorem reachable_items_untouched :
  forall (st : State),
    reachable getCroppedImg st -> Forall untouched (images st).
Proof.
  intros st Hr. induction Hr as [|ev st Hr IH]; [constructor|].
  now apply handle_untouched.
Qed.

End SessionInvariants.

(* ------------------------------------------------------------------ *)
(** * Export: further properties *)

Section ExportMore.
Import Canvas2D App.

Variable compose : string -> string -> float -> Compositor.Promise.

Lemma exportFrom_app png template aspectRatio (rest : list ImageData.t) :
  forall (l1 : list ImageData.t) (cs1 : list string) (i : nat),
    map ImageData.croppedImage l1 = map Some cs1 ->
    (forall c, In c cs1 -> compose c template aspectRatio = Compositor.Resolved (png c)) ->
    exportFrom compose template aspectRatio i (l1 ++ rest)%list =
    ((flat_map (round png template aspectRatio) (combine (seq (S i) (List.length cs1)) cs1)
      ++ fst (exportFrom compose template aspectRatio (i + List.length cs1) rest))%list,
     snd (exportFrom compose template aspectRatio (i + List.length cs1) rest)).
Proof.
  induction l1 as [|img l1 IH]; intros cs1 i Hmap Hok.
  - destruct cs1; [|discriminate]. cbn. rewrite Nat.add_0_r.
    now destruct (exportFrom compose template aspectRatio i rest).
  - destruct cs1 as [|c cs1]; [discriminate|].
    cbn in Hmap. injection Hmap as Himg Hl.
    cbn [app exportFrom]. rewrite Himg. cbn [nonNull].
    rewrite (Hok c (or_introl eq_refl)).
    rewrite (IH cs1 (S i) Hl) by (intros c' Hc'; apply Hok; now right).
    cbn [List.length seq combine flat_map round app fst snd].
    rewrite Nat.add_1_r. replace (S i + List.length cs1)%nat
      with (i + S (List.length cs1))%nat by lia.
    reflexivity.
Qed.

(** X22. A batch export stops at the first composition that is rejected:
    the items before it have been downloaded, the failing one and those
    after it are not, the processing indicator is not reset, and the
    rejection leaves the handler. *)
Theorem batch_export_aborts_on_failure :
  forall (png : string -> DataURL) (st : State)
         (l1 l2 : list ImageData.t) (img : ImageData.t)
         (cs1 : list string) (c : string) (r : Compositor.Reason),
    completedImages st = (l1 ++ img :: l2)%list ->
    map ImageData.croppedImage l1 = map Some cs1 ->
    (forall c', In c' cs1 ->
                compose c' (template st) (aspectRatio st) = Compositor.Resolved (png c')) ->
    ImageData.croppedImage img = Some c ->
    compose c (template st) (aspectRatio st) = Compositor.Rejected r ->
    handleDownloadAll compose st =
    ((SetIsProcessing true ::
      flat_map (round png (template st) (aspectRatio st))
               (combine (seq 1 (List.length cs1)) cs1)
      ++ [CreateHighQualityPoster c (template st) (aspectRatio st)])%list,
     Threw r) /\
    downloads (handleDownloadAll compose st) = map batchName (seq 1 (List.length cs1)).
Proof.
  intros png st l1 l2 img cs1 c r Hcompl Hcs Hok Himg Hrej.
  assert (Htrace : handleDownloadAll compose st =
                   ((SetIsProcessing true ::
                     flat_map (round png (template st) (aspectRatio st))
                              (combine (seq 1 (List.length cs1)) cs1)
                     ++ [CreateHighQualityPoster c (template st) (aspectRatio st)])%list,
                    Threw r)).
  { unfold handleDownloadAll. rewrite Hcompl.
    replace (Nat.eqb (List.length (l1 ++ img :: l2)%list) 0) with false
      by (symmetry; apply Nat.eqb_neq; rewrite length_app; cbn; lia).
    rewrite (exportFrom_app png _ _ (img :: l2) l1 cs1 0%nat Hcs Hok).
    cbn [exportFrom]. rewrite Himg. cbn [nonNull]. rewrite Hrej. reflexivity. }
  split; [exact Htrace|]. rewrite Htrace.
  change (downloads
            ((SetIsProcessing true
                :: flat_map (round png (template st) (aspectRatio st))
                     (combine (seq 1 (List.length cs1)) cs1)
                ++ [CreateHighQualityPoster c (template st) (aspectRatio st)])%list,
             Threw r))
    with (downloads
            ((flat_map (round png (template st) (aspectRatio st))
                       (combine (seq 1 (List.length cs1)) cs1)
              ++ [CreateHighQualityPoster c (template st) (aspectRatio st)])%list,
             Threw r)).
  rewrite downloads_rounds. cbn [downloads fst flat_map]. now rewrite app_nil_r.
Qed.

Lemma exportFrom_names template aspectRatio (l : list ImageData.t) :
  forall (i : nat),
    exists k, (k <= List.length l)%nat /\
              downloads (exportFrom compose template aspectRatio i l) =
              map batchName (seq (S i) k) /\
              (snd (exportFrom compose template aspectRatio i l) = Returned ->
               k = List.length l).
Proof.
  induction l as [|img l IH]; intros i.
  - exists 0%nat. repeat split. cbn. lia.
  - cbn [exportFrom].
    destruct (compose _ _ _) as [|d|r].
    + exists 0%nat. split; [cbn; lia|]. split; [reflexivity | discriminate].
    + destruct (IH (S i)) as (k & Hk & Hn & Hret).
      destruct (exportFrom compose template aspectRatio (S i) l) as [t c] eqn:Hrec.
      exists (S k). split; [cbn; lia|]. split.
      * unfold downloads in *. cbn [fst flat_map app] in *. rewrite Hn.
        cbn [seq map]. unfold batchName at 2. now rewrite Nat.add_1_r.
      * cbn [snd] in *. intros Hc. now rewrite (Hret Hc).
    + exists 0%nat. split; [cbn; lia|]. split; [reflexivity | discriminate].
Qed.

(** X23. Whatever the compositions do, the downloads of a batch export are
    [poster-1.png], [poster-2.png], ... up to some [poster-k.png] without a
    gap, with [k] at most the number of items the export visits, and equal
    to it when the handler returns. *)
Theorem batch_download_names :
  forall (st : State),
    exists k, (k <= List.length (completedImages st))%nat /\
              downloads (handleDownloadAll compose st) = map batchName (seq 1 k) /\
              (snd (handleDownloadAll compose st) = Returned ->
               k = List.length (completedImages st)).
Proof.
  intros st. unfold handleDownloadAll.
  destruct (Nat.eqb (List.length (completedImages st)) 0) eqn:He.
  - apply Nat.eqb_eq in He. exists 0%nat. rewrite He. repeat split. lia.
  - destruct (exportFrom_names (template st) (aspectRatio st) (completedImages st) 0)
      as (k & Hk & Hn & Hret).
    destruct (exportFrom compose (template st) (aspectRatio st) 0 (completedImages st))
      as [t c].
    exists k. split; [exact Hk|]. split; [exact Hn | exact Hret].
Qed.

Lemma exportFrom_composedWith template aspectRatio (l : list ImageData.t) :
  forall (i : nat), composedWith template aspectRatio
                                 (exportFrom compose template aspectRatio i l).
Proof.
  induction l as [|img l IH]; intros i c t' a' Hin.
  - cbn in Hin. destruct Hin as [Hin|[]]. discriminate.
  - cbn [exportFrom] in Hin.
    destruct (compose _ _ _) as [|d|r].
    + cbn in Hin. destruct Hin as [Hin|[]]. injection Hin as _ <- <-. auto.
    + specialize (IH (S i) c t' a').
      destruct (exportFrom compose template aspectRatio (S i) l) as [t k].
      cbn [fst] in *. destruct Hin as [Hin|[Hin|[Hin|Hin]]]; try discriminate.
      * injection Hin as _ <- <-. auto.
      * now apply IH.
    + cbn in Hin. destruct Hin as [Hin|[]]. injection Hin as _ <- <-. auto.
Qed.

(** X24. An export composes every poster with the template and the ratio
    of the mode selected at the time of the export, also for items that
    were cropped while the other mode was selected. *)
Theorem export_uses_selected_mode :
  forall (m : AspectMode) (imageId : string) (st : State),
    composedWith (templateOf m) (ratioOf m) (handleDownloadAll compose (selectMode m st)) /\
    composedWith (templateOf m) (ratioOf m)
                 (handleDownloadSingle compose imageId (selectMode m st)).
Proof.
  intros m imageId st. split.
  - unfold handleDownloadAll.
    destruct (Nat.eqb _ 0); [intros c t' a' []|].
    pose proof (exportFrom_composedWith (template (selectMode m st))
                  (aspectRatio (selectMode m st)) (completedImages (selectMode m st)) 0)
      as Hw.
    destruct (exportFrom compose _ _ 0 _) as [t k].
    intros c t' a' Hin. cbn [fst] in Hin. destruct Hin as [Hin|Hin]; [discriminate|].
    exact (Hw c t' a' Hin).
  - unfold handleDownloadSingle.
    destruct (find _ _) as [img|]; [|intros c t' a' []].
    destruct (negb _); [intros c t' a' []|].
    destruct (compose _ _ _) as [|d|r]; intros c t' a' Hin; cbn in Hin;
      destruct Hin as [Hin|Hin]; try discriminate; try contradiction;
      try (injection Hin as _ <- <-; auto);
      destruct Hin as [Hin|[]]; discriminate.
Qed.

Lemma isProcessing_fold (l : list Effect) :
  forall (st : State),
    isProcessing (fold_left applyEffect l st) = lastProcessing l (isProcessing st).
Proof.
  unfold lastProcessing.
  induction l as [|e l IH]; intros st; [reflexivity|].
  cbn [fold_left]. rewrite IH. destruct e; reflexivity.
Qed.

Lemma exportFrom_processing template aspectRatio (l : list ImageData.t) :
  forall (i : nat) (b : bool),
    lastProcessing (fst (exportFrom compose template aspectRatio i l)) b =
    match snd (exportFrom compose template aspectRatio i l) with
    | Returned => false
    | _ => b
    end.
Proof.
  induction l as [|img l IH]; intros i b; [reflexivity|].
  cbn [exportFrom].
  destruct (compose _ _ _) as [|d|r]; [reflexivity| |reflexivity].
  specialize (IH (S i) b).
  destruct (exportFrom compose template aspectRatio (S i) l) as [t k].
  exact IH.
Qed.

(** X25. After a batch export the processing indicator is off if the
    handler returned after visiting at least one item, unchanged if there
    was nothing to export, and left on if a composition was rejected or
    never settled, which keeps the export button disabled. *)
Theorem isProcessing_after_batch :
  forall (st : State),
    isProcessing (afterExport (handleDownloadAll compose st) st) =
    match snd (handleDownloadAll compose st), completedImages st with
    | Returned, [] => isProcessing st
    | Returned, _ => false
    | _, _ => true
    end.
Proof.
  intros st. unfold afterExport. rewrite isProcessing_fold.
  unfold handleDownloadAll.
  destruct (completedImages st) as [|img l] eqn:Hc; [reflexivity|].
  cbn [List.length Nat.eqb].
  pose proof (exportFrom_processing (template st) (aspectRatio st) (img :: l) 0 true) as Hl.
  destruct (exportFrom compose (template st) (aspectRatio st) 0 (img :: l)) as [t k].
  cbn [fst snd] in *. unfold lastProcessing in *. cbn [fold_left]. rewrite Hl.
  destruct k; reflexivity.
Qed.

End ExportMore.

(* ------------------------------------------------------------------ *)
(** * The further properties at the sample data *)

Section MoreWitnesses.
Import Canvas2D App.

(** X7 at the sample data: two files are appended to the sample session
    in the order in which their readers fired, and item [a] stays active. *)
Lemma handleUpload_complete_witness :
  map ImageData.id (images (handleUpload (Some 2%nat) Demo.reads Demo.session)) =
  ["a"; "b"; "c"; "d"; "image-1700000000000-1"; "image-1700000000001-0"]%string /\
  currentImageIndex (handleUpload (Some 2%nat) Demo.reads Demo.session) = 0 /\
  isProcessing (handleUpload (Some 2%nat) Demo.reads Demo.session) = false.
Proof.
  assert (H : handleUpload (Some 2%nat) Demo.reads Demo.session =
              mkState (images Demo.session ++ uploadedItems Demo.reads)%list 0
                      (crop Demo.session) (zoom Demo.session)
                      (croppedAreaPixels Demo.session) (aspectRatio Demo.session)
                      (template Demo.session) false).
  { apply (handleUpload_complete Demo.reads Demo.session).
    - discriminate.
    - repeat constructor; discriminate. }
  rewrite H. repeat split.
Defined.

(** X8 at the sample data: one of two files is not read as a string. *)
Lemma handleUpload_incomplete_witness :
  handleUpload (Some 2%nat) Demo.badReads Demo.session = setIsProcessing true Demo.session.
Proof.
  apply handleUpload_incomplete. left. cbn. lia.
Defined.

(** X9 at the sample data: a photo taken in the sample session is the
    fifth item and the active one. *)
Lemma handleCameraCapture_activates_witness :
  currentImage (handleCameraCapture Demo.session
                  (Some (1700000000002, Some "data:shot"%string)) Demo.session) =
  Some (captured 1700000000002 "data:shot").
Proof.
  destruct (handleCameraCapture_activates Demo.session Demo.session
              1700000000002 "data:shot") as (_ & _ & Hsync & _).
  destruct (Hsync eq_refl) as [Hcur _]. exact Hcur.
Defined.

(** X10 at the sample data: item [a] is active, but the cropper rejects
    because no crop rectangle has been reported. *)
Lemma handleCrop_noop_witness :
  handleCrop Demo.cropper (setCroppedAreaPixels None Demo.session)
             (setCroppedAreaPixels None Demo.session) =
  setCroppedAreaPixels None Demo.session.
Proof.
  apply handleCrop_noop. right. right.
  exists (Demo.item "a" "data:photo-a" (Some "data:crop-a"%string)).
  split; reflexivity.
Defined.

(** X12 at the sample data: the commit was started while item [c] stood at
    position 2; item [a] was removed before the promise settled, and the
    cropped image of [c]'s source is stored in item [d]. *)
Lemma handleCrop_by_position_witness :
  nth_error (images (handleCrop Demo.cropper (setCurrentImageIndex 2 Demo.session)
                                (removeImage "a" (setCurrentImageIndex 2 Demo.session)))) 2 =
  Some (cropped (Demo.item "d" "data:photo-d" (Some "data:crop-d"%string))
                "data:cropped" (Some (CropImage.mkPixelCrop 100 50 400 450))).
Proof.
  apply (handleCrop_by_position Demo.cropper (setCurrentImageIndex 2 Demo.session)
           (removeImage "a" (setCurrentImageIndex 2 Demo.session)) 2
           (Demo.item "c" "data:photo-c" None)); reflexivity.
Defined.

(** X14 at the sample data: after the commit on item [c] the cropper is
    hidden. *)
Lemma commit_hides_cropper_witness :
  cropSectionVisible (handleCrop Demo.cropper (setCurrentImageIndex 2 Demo.session)
                                 (setCurrentImageIndex 2 Demo.session)) = false.
Proof.
  apply (commit_hides_cropper Demo.cropper (setCurrentImageIndex 2 Demo.session) 2
           (Demo.item "c" "data:photo-c" None) "data:cropped").
  - reflexivity.
  - reflexivity.
  - reflexivity.
  - discriminate.
Defined.

(** X16 at the sample data. *)
Lemma removeImage_unknown_id_witness : removeImage "z" Demo.session = Demo.session.
Proof.
  apply removeImage_unknown_id.
  - intros img Hin. cbn in Hin.
    destruct Hin as [<-|[<-|[<-|[<-|[]]]]]; discriminate.
  - cbn. lia.
Defined.

(** X17 at the sample data: item [b] is active and item [a] is removed;
    item [c] becomes the active one. *)
Lemma removeImage_shifts_active_witness :
  currentImage (removeImage "a" (setCurrentImageIndex 1 Demo.session)) =
  Some (Demo.item "c" "data:photo-c" None).
Proof.
  destruct (removeImage_shifts_active "a" (setCurrentImageIndex 1 Demo.session)
              []
              [Demo.item "b" "data:photo-b" (Some "data:crop-b"%string);
               Demo.item "c" "data:photo-c" None;
               Demo.item "d" "data:photo-d" (Some "data:crop-d"%string)]
              (Demo.item "a" "data:photo-a" (Some "data:crop-a"%string)) 1)
    as (_ & _ & Hnext & _).
  - reflexivity.
  - reflexivity.
  - intros img Hin. cbn in Hin. destruct Hin as [<-|[<-|[<-|[]]]]; discriminate.
  - reflexivity.
  - rewrite Hnext; [reflexivity | cbn; lia].
Defined.

(** X18 at the sample data: after an upload and the removal of both new
    items the list is empty and the pointer is 0. *)
Lemma reachable_pointer_witness :
  pointerOK (handle Demo.cropper (Remove "image-1700000000001-0")
               (handle Demo.cropper (Remove "image-1700000000000-1")
                  (handle Demo.cropper (Upload (Some 2%nat) Demo.reads) initial))).
Proof.
  apply (reachable_pointer Demo.cropper).
  repeat apply reachable_step. apply reachable_initial.
Defined.


(** X20 at the sample data. *)
Lemma reachable_mode_consistent_witness :
  modeConsistent (handle Demo.cropper (Upload (Some 2%nat) Demo.reads)
                    (handle Demo.cropper (SelectMode Portrait) initial)).
Proof.
  apply (reachable_mode_consistent Demo.cropper).
  repeat apply reachable_step. apply reachable_initial.
Defined.

(** X21 at the sample data. *)
Lemma reachable_items_untouched_witness :
  Forall untouched
         (images (handle Demo.cropper Commit
                    (handle Demo.cropper
                       (CropComplete None (Some (CropImage.mkPixelCrop 100 50 400 450)))
                       (handle Demo.cropper (Upload (Some 2%nat) Demo.reads) initial)))).
Proof.
  apply (reachable_items_untouched Demo.cropper).
  repeat apply reachable_step. apply reachable_initial.
Defined.

(** X22 at the sample data: the cropped image of the second item does not
    decode; the first poster is downloaded and the batch stops. *)
Lemma batch_export_aborts_on_failure_witness :
  downloads (handleDownloadAll (Compositor.settled Demo.decode true) Demo.damaged) =
  ["poster-1.png"%string] /\
  snd (handleDownloadAll (Compositor.settled Demo.decode true) Demo.damaged) =
  Threw (Compositor.ImageError Compositor.CroppedEl).
Proof.
  destruct (batch_export_aborts_on_failure (Compositor.settled Demo.decode true)
              (fun _ => Demo.poster) Demo.damaged
              [Demo.item "a" "data:photo-a" (Some "data:crop-a"%string)]
              [Demo.item "d" "data:photo-d" (Some "data:crop-d"%string)]
              (Demo.item "b" "data:photo-b" (Some "blob:revoked"%string))
              ["data:crop-a"%string] "blob:revoked"
              (Compositor.ImageError Compositor.CroppedEl))
    as [Htrace Hnames].
  - reflexivity.
  - reflexivity.
  - intros c' [<-|[]]. reflexivity.
  - reflexivity.
  - reflexivity.
  - split; [exact Hnames | rewrite Htrace; reflexivity].
Defined.

End MoreWitnesses.
